(** * CCIP MCP server: chain resolver and transfer orchestrator

    A shallow embedding of [mcp-server.py]: the chain registry
    [SUPPORTED_CHAINS], the resolver [find_closest_chain] (with the part of
    Python's [difflib] it calls) and the tool dispatcher [handle_call_tool].

    Conventions of the embedding.
    - A Python [str] is a Rocq [string]; a character is read as its code
      point.  [lower] and [strip] follow Python on the ASCII range, which is
      the range of every alias of the registry; the Unicode case and
      white-space tables above U+007F are not modelled.  The emoji of the
      message templates are kept as their UTF-8 bytes.
    - A Python exception of class [Exception] is the [Raise] outcome,
      carrying [str(e)]; [RaiseBase] is an exception that is no [Exception]
      ([SystemExit], [KeyboardInterrupt]), which [except Exception] does not
      catch.
    - The similarity scores of [difflib] are floats [2.0*M/T] with [M], [T]
      small integers; they are modelled as exact rationals.  Two such
      quotients with [T] below 2^25 that differ are more than one ulp apart,
      and the cutoff 0.6 is the double nearest 3/5, so every comparison the
      code makes on doubles has the outcome of the comparison on rationals. *)

From Stdlib Require Import ZArith QArith Ascii String.
From stdpp Require Import base option list gmap strings fin_maps pretty.

Local Open Scope Z_scope.

(** ** Python strings *)

Module Py.

(** Outcome of a Python call: a value, a raised [Exception] ([str(e)]), or
    a raised [BaseException] that is no [Exception]. *)
Inductive outcome (A : Type) : Type :=
  | Return (a : A)
  | Raise (e : string)
  | RaiseBase (e : string).
Arguments Return {A} a.
Arguments Raise {A} e.
Arguments RaiseBase {A} e.

Definition is_upper (c : ascii) : bool :=
  let n := nat_of_ascii c in Nat.leb 65 n && Nat.leb n 90.

Definition lower_char (c : ascii) : ascii :=
  if is_upper c then ascii_of_nat (nat_of_ascii c + 32) else c.

(** [str.lower()] *)
Fixpoint lower (s : string) : string :=
  match s with
  | EmptyString => EmptyString
  | String c s' => String (lower_char c) (lower s')
  end.

(** [str.isspace()] on one character: TAB, LF, VT, FF, CR, FS, GS, RS, US
    and the space. *)
Definition is_space (c : ascii) : bool :=
  let n := nat_of_ascii c in
  (Nat.leb 9 n && Nat.leb n 13) || (Nat.leb 28 n && Nat.leb n 32).

Fixpoint all_space (s : string) : bool :=
  match s with
  | EmptyString => true
  | String c s' => is_space c && all_space s'
  end.

Fixpoint lstrip (s : string) : string :=
  match s with
  | EmptyString => EmptyString
  | String c s' => if is_space c then lstrip s' else s
  end.

Fixpoint rstrip (s : string) : string :=
  match s with
  | EmptyString => EmptyString
  | String c s' =>
      match rstrip s' with
      | EmptyString => if is_space c then EmptyString else String c EmptyString
      | r => String c r
      end
  end.

(** [str.strip()] *)
Definition strip (s : string) : string := rstrip (lstrip s).

(** [sub in s] on strings *)
Fixpoint contains (sub s : string) : bool :=
  String.prefix sub s ||
  match s with
  | EmptyString => false
  | String _ s' => contains sub s'
  end.

(** [repr] of a list of strings that hold neither quote nor backslash nor
    control characters, as the registry keys do. *)
Fixpoint repr_items (l : list string) : string :=
  match l with
  | [] => ""
  | [x] => "'" +:+ x +:+ "'"
  | x :: l' => "'" +:+ x +:+ "', " +:+ repr_items l'
  end.

Definition repr_list (l : list string) : string := "[" +:+ repr_items l +:+ "]".

End Py.

Import Py.

(** ** The registry *)

Definition SUPPORTED_CHAINS : list (string * list string) :=
  [ ("ethereum_sepolia",
     ["ethereum"; "eth"; "sepolia"; "ethereum sepolia"; "eth sepolia"; "ethereum_sepolia"]);
    ("base_sepolia",
     ["base"; "base sepolia"; "base_sepolia"; "coinbase"]);
    ("arbitrum_sepolia",
     ["arbitrum"; "arb"; "arbitrum sepolia"; "arbitrum_sepolia"; "arb sepolia"]);
    ("avalanche_fuji",
     ["avalanche"; "avax"; "fuji"; "avalanche fuji"; "avalanche_fuji"; "avax fuji"]) ].

(** [list(SUPPORTED_CHAINS.keys())] *)
Definition keys : list string := SUPPORTED_CHAINS.*1.


(** ** The part of Python's [difflib] that [find_closest_chain] calls

    [get_close_matches(word, possibilities, n=1, cutoff=0.6)] and the methods
    of [SequenceMatcher] it runs, following CPython's [Lib/difflib.py] and
    [heapq.nlargest].  No [isjunk] is given, so the junk set [bjunk] is
    empty: the tests [not isbjunk(..)] hold, and the two loops of
    [find_longest_match] that extend a block over junk never iterate. *)

Module difflib.

Definition Match : Type := Z * Z * Z.
Definition window : Type := Z * Z * Z * Z.

Definition len {A} (l : list A) : Z := Z.of_nat (length l).

Fixpoint indices_from (c : ascii) (l : list ascii) (i : Z) : list Z :=
  match l with
  | [] => []
  | x :: l' =>
      if bool_decide (x = c) then i :: indices_from c l' (i + 1)
      else indices_from c l' (i + 1)
  end.

(** [a[i] == b[j]] for indices inside the sequences *)
Definition same_item (a : list ascii) (i : Z) (b : list ascii) (j : Z) : bool :=
  match a !! Z.to_nat i, b !! Z.to_nat j with
  | Some x, Some y => bool_decide (x = y)
  | _, _ => false
  end.

Section SequenceMatcher.
(** [a] is set by [set_seq1], [b] by [set_seq2]. *)
Variables a b : list ascii.

(** [__chain_b]: [b2j[c]] lists the indices of [c] in [b], ascending;
    with [autojunk], when [len(b) >= 200] the elements that occur more
    than [len(b) // 100 + 1] times are deleted from [b2j]. *)
Definition popular (c : ascii) : bool :=
  (200 <=? len b) && (len b / 100 + 1 <? len (indices_from c b 0)).

Definition b2j (c : ascii) : list Z :=
  if popular c then [] else indices_from c b 0.

(** The inner loop of [find_longest_match] at row [i], over
    [b2j.get(a[i], nothing)]. *)
Fixpoint scan_row (i blo bhi : Z) (j2len : gmap Z Z) (js : list Z)
    (newj2len : gmap Z Z) (best : Match) : gmap Z Z * Match :=
  match js with
  | [] => (newj2len, best)
  | j :: js' =>
      if j <? blo then scan_row i blo bhi j2len js' newj2len best
      else if bhi <=? j then (newj2len, best)
      else
        let k := default 0 (j2len !! (j - 1)) + 1 in
        let newj2len := <[j := k]> newj2len in
        let '(besti, bestj, bestsize) := best in
        let best := if bestsize <? k then (i - k + 1, j - k + 1, k) else best in
        scan_row i blo bhi j2len js' newj2len best
  end.

(** [for i in range(alo, ahi)]: [n] rows are left, the next one is [i]. *)
Fixpoint scan_rows (n : nat) (i blo bhi : Z) (j2len : gmap Z Z) (best : Match)
    : gmap Z Z * Match :=
  match n with
  | O => (j2len, best)
  | S n' =>
      let js := match a !! Z.to_nat i with Some c => b2j c | None => [] end in
      let '(newj2len, best) := scan_row i blo bhi j2len js ∅ best in
      scan_rows n' (i + 1) blo bhi newj2len best
  end.

Definition extend_left_test (alo blo : Z) (m : Match) : bool :=
  let '(besti, bestj, bestsize) := m in
  (alo <? besti) && (blo <? bestj) && same_item a (besti - 1) b (bestj - 1).

Definition extend_right_test (ahi bhi : Z) (m : Match) : bool :=
  let '(besti, bestj, bestsize) := m in
  (besti + bestsize <? ahi) && (bestj + bestsize <? bhi) &&
  same_item a (besti + bestsize) b (bestj + bestsize).

(** The two [while] loops that extend the block over popular elements;
    [fuel] bounds the iterations. *)
Fixpoint extend_left (fuel : nat) (alo blo : Z) (m : Match) : Match :=
  match fuel with
  | O => m
  | S fuel' =>
      if extend_left_test alo blo m then
        let '(besti, bestj, bestsize) := m in
        extend_left fuel' alo blo (besti - 1, bestj - 1, bestsize + 1)
      else m
  end.

Fixpoint extend_right (fuel : nat) (ahi bhi : Z) (m : Match) : Match :=
  match fuel with
  | O => m
  | S fuel' =>
      if extend_right_test ahi bhi m then
        let '(besti, bestj, bestsize) := m in
        extend_right fuel' ahi bhi (besti, bestj, bestsize + 1)
      else m
  end.

Definition find_longest_match (alo ahi blo bhi : Z) : Match :=
  let '(_, m) := scan_rows (Z.to_nat (ahi - alo)) alo blo bhi ∅ (alo, blo, 0) in
  let m := extend_left (Z.to_nat (m.1.1 - alo)) alo blo m in
  extend_right (Z.to_nat (ahi - (m.1.1 + m.2))) ahi bhi m.

(** The [while queue] loop of [get_matching_blocks]; the head of [queue]
    is the element [queue.pop()] takes.  [None]: out of fuel. *)
Fixpoint matching_loop (fuel : nat) (queue : list window)
    (matching_blocks : list Match) : option (list Match) :=
  match fuel with
  | O => None
  | S fuel' =>
      match queue with
      | [] => Some matching_blocks
      | (alo, ahi, blo, bhi) :: queue =>
          let '(i, j, k) := find_longest_match alo ahi blo bhi in
          if k =? 0 then matching_loop fuel' queue matching_blocks
          else
            let matching_blocks := matching_blocks ++ [(i, j, k)] in
            let queue :=
              if (alo <? i) && (blo <? j) then (alo, i, blo, j) :: queue else queue in
            let queue :=
              if (i + k <? ahi) && (j + k <? bhi) then (i + k, ahi, j + k, bhi) :: queue
              else queue in
            matching_loop fuel' queue matching_blocks
      end
  end.

Definition get_matching_blocks : option (list Match) :=
  matching_loop (2 * length a + 2) [(0, len a, 0, len b)] [].

(** [sum(triple[-1] for triple in self.get_matching_blocks())].  The
    source sorts the blocks, merges adjacent ones and appends a sentinel
    of size 0 before summing; none of these changes the sum. *)
Definition matches : Z :=
  match get_matching_blocks with
  | Some blocks => foldr Z.add 0 (blocks.*2)
  | None => 0
  end.

Definition _calculate_ratio (matches length : Z) : Q :=
  if length =? 0 then 1%Q else (2 * matches) # (Z.to_pos length).

Definition ratio : Q := _calculate_ratio matches (len a + len b).

Definition fullbcount : gmap ascii Z :=
  foldl (fun m elt => <[elt := default 0 (m !! elt) + 1]> m) ∅ b.

Definition quick_step (st : gmap ascii Z * Z) (elt : ascii) : gmap ascii Z * Z :=
  let '(avail, matches) := st in
  let numb :=
    match avail !! elt with
    | Some n => n
    | None => default 0 (fullbcount !! elt)
    end in
  (<[elt := numb - 1]> avail, if 0 <? numb then matches + 1 else matches).

Definition quick_ratio : Q :=
  _calculate_ratio (foldl quick_step (∅, 0) a).2 (len a + len b).

Definition real_quick_ratio : Q :=
  _calculate_ratio (Z.min (len a) (len b)) (len a + len b).

End SequenceMatcher.

(** Python's [>] on the tuples [(score, x)]: the first components that
    differ decide. *)
Definition tuple_gt (p q : Q * string) : bool :=
  if negb (Qeq_bool p.1 q.1) then negb (Qle_bool p.1 q.1)
  else match String.compare p.2 q.2 with Gt => true | _ => false end.

(** [max(it, default=sentinel)]: the first of the greatest items. *)
Definition py_max (l : list (Q * string)) : option (Q * string) :=
  match l with
  | [] => None
  | x :: l' => Some (foldl (fun best item => if tuple_gt item best then item else best) x l')
  end.

(** [heapq.nlargest(1, result)] *)
Definition nlargest1 (result : list (Q * string)) : list (Q * string) :=
  match py_max result with
  | None => []
  | Some r => [r]
  end.

Definition close_enough (cutoff : Q) (word x : string) : bool :=
  let a := list_ascii_of_string x in
  let b := list_ascii_of_string word in
  Qle_bool cutoff (real_quick_ratio a b) &&
  Qle_bool cutoff (quick_ratio a b) &&
  Qle_bool cutoff (ratio a b).

Definition score (word x : string) : Q :=
  ratio (list_ascii_of_string x) (list_ascii_of_string word).

(** [get_close_matches(word, possibilities, n=1, cutoff)] *)
Definition get_close_matches (word : string) (possibilities : list string)
    (cutoff : Q) : list string :=
  let result :=
    (fun x => (score word x, x)) <$> filter (fun x => close_enough cutoff word x = true) possibilities in
  (nlargest1 result).*2.

(** A block lies inside the window [alo, ahi) x [blo, bhi). *)
Definition inside (alo ahi blo bhi : Z) (m : Match) : Prop :=
  let '(i, j, k) := m in
  alo <= i /\ i + k <= ahi /\ blo <= j /\ j + k <= bhi /\ 0 <= k.

(** The run lengths of [j2len] when the row before [i] has been scanned. *)
Definition runs_below (alo blo i : Z) (j2len : gmap Z Z) : Prop :=
  forall j v, j2len !! j = Some v -> v <= i - alo /\ v <= j - blo + 1.

Definition valid (w : window) : Prop :=
  let '(alo, ahi, blo, bhi) := w in alo <= ahi /\ blo <= bhi.

Definition weight (w : window) : nat :=
  let '(alo, ahi, blo, bhi) := w in 2 * Z.to_nat (ahi - alo) + 1.

Definition queue_weight (queue : list window) : nat :=
  foldr (fun w n => (weight w + n)%nat) 0%nat queue.

End difflib.

(** ** The resolver *)

(** The loop of the direct pass: the first entry, in the order of the
    registry, one of whose lower-cased aliases is the input. *)
Fixpoint direct_match (items : list (string * list string)) (user_input_lower : string)
    : option string :=
  match items with
  | [] => None
  | (chain_key, aliases) :: items' =>
      if bool_decide (user_input_lower ∈ lower <$> aliases) then Some chain_key
      else direct_match items' user_input_lower
  end.

(** The two nested loops that fill [all_aliases] and [chain_mapping]. *)
Definition fuzzy_tables (items : list (string * list string))
    : list string * gmap string string :=
  foldl (fun tables '(chain_key, aliases) =>
           foldl (fun '(all_aliases, chain_mapping) alias =>
                    (all_aliases ++ [lower alias], <[lower alias := chain_key]> chain_mapping))
                 tables aliases)
        ([], ∅) items.

Definition all_aliases : list string := (fuzzy_tables SUPPORTED_CHAINS).1.
Definition chain_mapping : gmap string string := (fuzzy_tables SUPPORTED_CHAINS).2.

(** [str(KeyError(k))] for a key [k] without quotes. *)
Definition KeyError (k : string) : string := "'" +:+ k +:+ "'".

Definition find_closest_chain (user_input : string) : outcome (option string) :=
  let user_input_lower := strip (lower user_input) in
  match direct_match SUPPORTED_CHAINS user_input_lower with
  | Some chain_key => Return (Some chain_key)
  | None =>
      let matches := difflib.get_close_matches user_input_lower all_aliases 0.6%Q in
      match matches with
      | m :: _ =>
          match chain_mapping !! m with
          | Some chain_key => Return (Some chain_key)
          | None => Raise (KeyError m)
          end
      | [] => Return None
      end
  end.

(** ** Values, the transfer client and the call log *)

(** The values an argument map holds: JSON strings and numbers.  A float
    is carried as its [repr], which identifies it. *)
Inductive pyval : Type :=
  | PyStr (s : string)
  | PyInt (n : Z)
  | PyFloat (repr : string).

Global Instance pyval_eq_dec : EqDecision pyval.
Proof. solve_decision. Defined.

(** [str(v)], which is what an f-string field [{v}] renders. *)
Definition str (v : pyval) : string :=
  match v with
  | PyStr s => s
  | PyInt n => pretty n
  | PyFloat repr => repr
  end.

Definition type_name (v : pyval) : string :=
  match v with
  | PyStr _ => "str"
  | PyInt _ => "int"
  | PyFloat _ => "float"
  end.

(** The eight operations of the client of [ccip_sdk], with the arguments
    the handler passes.  What an operation returns is carried as the text
    an f-string renders it to. *)
Inductive capability : Type :=
  | deploy_sender_contract (chain : string)
  | send_tokens_to_sender_contract (chain : string) (token_type amount : pyval)
  | send_eth_to_contract (chain : string) (amount : pyval)
  | allow_destination_chain (current_chain destination_chain : string)
  | deploy_receiver_contract (chain : string)
  | allow_source_chain (current_chain sender_chain : string)
  | allow_sender_on_receiver (sender_chain receiver_chain : string)
  | transfer (sender_chain receiver_chain : string) (text amount : pyval).

Global Instance capability_eq_dec : EqDecision capability.
Proof. solve_decision. Defined.

Global Instance outcome_eq_dec {A} `{EqDecision A} : EqDecision (outcome A).
Proof. solve_decision. Defined.

(** The calls made on the client so far, each with its outcome. *)
Abbreviation call_log := (list (capability * outcome string)).

(** A client object: its answer to a call, given the calls made before. *)
Definition Client : Type := call_log -> capability -> outcome string.

(** Handler code: it reads and extends the call log and may raise. *)
Definition M (A : Type) : Type := call_log -> outcome A * call_log.

Global Instance M_ret : MRet M := fun A a log => (Return a, log).

Global Instance M_bind : MBind M := fun A B f m log =>
  match m log with
  | (Return a, log') => f a log'
  | (Raise e, log') => (Raise e, log')
  | (RaiseBase e, log') => (RaiseBase e, log')
  end.

Definition lift {A} (o : outcome A) : M A := fun log => (o, log).

Definition call (client : Client) (op : capability) : M string :=
  fun log => let r := client log op in (r, log ++ [(op, r)]).

(** [try: body except Exception as e: handler(str(e))]; what is no
    [Exception] passes through. *)
Definition try_except {A} (body : M A) (handler : string -> M A) : M A :=
  fun log =>
    match body log with
    | (Return a, log') => (Return a, log')
    | (Raise e, log') => handler e log'
    | (RaiseBase e, log') => (RaiseBase e, log')
    end.

(** [arguments[key]] *)
Definition getitem (arguments : gmap string pyval) (key : string) : outcome pyval :=
  match arguments !! key with
  | Some v => Return v
  | None => Raise (KeyError key)
  end.

(** [arguments.get(key, dflt)] *)
Definition get (arguments : gmap string pyval) (key : string) (dflt : pyval) : pyval :=
  default dflt (arguments !! key).

(** [find_closest_chain] called on a value: [user_input.lower()] raises
    [AttributeError] when the value is no [str]. *)
Definition find_closest_chain_of (user_input : pyval) : outcome (option string) :=
  match user_input with
  | PyStr s => find_closest_chain s
  | _ => Raise ("'" +:+ type_name user_input +:+ "' object has no attribute 'lower'")
  end.

(** [not x] for [x : Optional[str]] *)
Definition falsy (x : option string) : bool :=
  match x with
  | None => true
  | Some s => bool_decide (s = "")
  end.

(** ** The tool dispatcher *)

Definition nl : string := String "010"%char "".
Definition dq : string := String "034"%char "".

Definition supported_tokens : string := "LINK, CCIP-BnM, USDC, CCIP-LnM".

(** The text built in the [except] clause, from [str(e)]. *)
Definition error_msg (e : string) : string :=
  "❌ **Transfer Failed**" +:+ nl +:+
  nl +:+
  "**Error:** " +:+ e +:+ nl +:+
  nl +:+
  "**Troubleshooting:**" +:+ nl +:+
  "• Check your private key has sufficient funds on both chains" +:+ nl +:+
  "• Verify chain names are correct" +:+ nl +:+
  "• Ensure token type is supported" +:+ nl +:+
  "• Check network connectivity" +:+ nl +:+
  nl +:+
  "**Supported Chains:** " +:+ repr_list keys +:+ nl +:+
  "**Supported Tokens:** " +:+ supported_tokens +:+ nl.

Section Handler.
(** [from ccip_sdk import CCIPClient] followed by
    [CCIPClient(private_key=...)]: the client object, or the exception
    the import or the constructor raises. *)
Variable CCIPClient : pyval -> outcome Client.

(** The body of the [try] of the branch [execute_ccip_transfer]. *)
Definition execute_ccip_transfer (arguments : gmap string pyval) : M string :=
  sender_input ← lift (getitem arguments "sender_chain");
  receiver_input ← lift (getitem arguments "receiver_chain");
  private_key ← lift (getitem arguments "private_key");
  sender_chain ← lift (find_closest_chain_of sender_input);
  receiver_chain ← lift (find_closest_chain_of receiver_input);
  if falsy sender_chain then
    mret ("❌ Invalid sender chain '" +:+ str sender_input +:+ "'. Supported: "
          +:+ repr_list keys)
  else if falsy receiver_chain then
    mret ("❌ Invalid receiver chain '" +:+ str receiver_input +:+ "'. Supported: "
          +:+ repr_list keys)
  else if bool_decide (sender_chain = receiver_chain) then
    mret "❌ Sender and receiver chains must be different"
  else
    (* past the three tests both chains are [Some] of a non-empty string *)
    let sender_chain := default "" sender_chain in
    let receiver_chain := default "" receiver_chain in
    let token_type := get arguments "token_type" (PyStr "CCIP-BnM") in
    let token_amount := get arguments "token_amount" (PyFloat "0.1") in
    let eth_amount := get arguments "eth_amount" (PyFloat "0.05") in
    let transfer_amount := get arguments "transfer_amount" (PyFloat "0.069") in
    let message := get arguments "message" (PyStr "Cross-chain transfer via MCP") in
    client ← lift (CCIPClient private_key);
    let result_text :=
      "🚀 **Starting CCIP Cross-Chain Transfer**" +:+ nl +:+
      nl +:+
      "📋 **Configuration:**" +:+ nl +:+
      "• **From:** " +:+ sender_chain +:+ nl +:+
      "• **To:** " +:+ receiver_chain +:+ nl +:+
      "• **Token:** " +:+ str token_type +:+ nl +:+
      "• **Amount:** " +:+ str transfer_amount +:+ nl +:+
      "• **Message:** " +:+ dq +:+ str message +:+ dq +:+ nl +:+
      nl +:+
      "⏳ **Executing all steps...**" +:+ nl +:+
      nl in
    let result_text := result_text +:+
      "🔄 **Step 1:** Deploying sender contract..." +:+ nl in
    sender_contract ← call client (deploy_sender_contract sender_chain);
    let result_text := result_text +:+
      "✅ Sender contract deployed: `" +:+ sender_contract +:+ "`" +:+ nl +:+ nl in
    let result_text := result_text +:+
      "🔄 **Step 2:** Sending " +:+ str token_amount +:+ " " +:+ str token_type
      +:+ " to sender..." +:+ nl in
    token_txn ← call client
      (send_tokens_to_sender_contract sender_chain token_type token_amount);
    let result_text := result_text +:+
      "✅ Tokens sent: `" +:+ token_txn +:+ "`" +:+ nl +:+ nl in
    let result_text := result_text +:+
      "🔄 **Step 3:** Sending " +:+ str eth_amount +:+ " ETH for gas..." +:+ nl in
    eth_txn ← call client (send_eth_to_contract sender_chain eth_amount);
    let result_text := result_text +:+
      "✅ ETH sent: `" +:+ eth_txn +:+ "`" +:+ nl +:+ nl in
    let result_text := result_text +:+
      "🔄 **Step 4:** Configuring destination chain (" +:+ receiver_chain +:+ ")..."
      +:+ nl in
    dest_txn ← call client (allow_destination_chain sender_chain receiver_chain);
    let result_text := result_text +:+
      "✅ Destination configured: `" +:+ dest_txn +:+ "`" +:+ nl +:+ nl in
    let result_text := result_text +:+
      "🔄 **Step 5:** Deploying receiver contract..." +:+ nl in
    receiver_contract ← call client (deploy_receiver_contract receiver_chain);
    let result_text := result_text +:+
      "✅ Receiver contract deployed: `" +:+ receiver_contract +:+ "`" +:+ nl +:+ nl in
    let result_text := result_text +:+
      "🔄 **Step 6:** Configuring source chain (" +:+ sender_chain +:+ ")..." +:+ nl in
    source_txn ← call client (allow_source_chain receiver_chain sender_chain);
    let result_text := result_text +:+
      "✅ Source configured: `" +:+ source_txn +:+ "`" +:+ nl +:+ nl in
    let result_text := result_text +:+
      "🔄 **Step 7:** Linking sender and receiver contracts..." +:+ nl in
    link_txn ← call client (allow_sender_on_receiver sender_chain receiver_chain);
    let result_text := result_text +:+
      "✅ Contracts linked: `" +:+ link_txn +:+ "`" +:+ nl +:+ nl in
    let result_text := result_text +:+
      "🔄 **Step 8:** Executing cross-chain transfer of " +:+ str transfer_amount
      +:+ " " +:+ str token_type +:+ "..." +:+ nl in
    transfer_url ← call client
      (transfer sender_chain receiver_chain message transfer_amount);
    let result_text := result_text +:+
      "🎉 **TRANSFER COMPLETE!**" +:+ nl +:+
      nl +:+
      "✨ **Success!** Cross-chain transfer executed successfully!" +:+ nl +:+
      nl +:+
      "🔗 **Track Transfer:** " +:+ transfer_url +:+ nl +:+
      nl +:+
      "📊 **Summary:**" +:+ nl +:+
      "• **Sender Contract:** `" +:+ sender_contract +:+ "`" +:+ nl +:+
      "• **Receiver Contract:** `" +:+ receiver_contract +:+ "`" +:+ nl +:+
      "• **From:** " +:+ sender_chain +:+ " " +:+ nl +:+
      "• **To:** " +:+ receiver_chain +:+ nl +:+
      "• **Amount:** " +:+ str transfer_amount +:+ " " +:+ str token_type +:+ nl +:+
      "• **Message:** " +:+ dq +:+ str message +:+ dq +:+ nl +:+
      nl +:+
      "🎯 **All 8 steps completed successfully!**" +:+ nl in
    mret result_text.

(** The branch [find_supported_chain]. *)
Definition find_supported_chain (arguments : gmap string pyval) : M string :=
  chain_input ← lift (getitem arguments "chain_input");
  match_ ← lift (find_closest_chain_of chain_input);
  if falsy match_ then
    mret ("❌ **No Match:** `" +:+ str chain_input +:+ "`" +:+ nl +:+ nl +:+
          "Supported: " +:+ repr_list keys)
  else
    mret ("✅ **Chain Found:** `" +:+ str chain_input +:+ "` → `"
          +:+ default "" match_ +:+ "`").

(** [handle_call_tool(name, arguments)]: the text of the one
    [TextContent] it returns. *)
Definition handle_call_tool (name : string) (arguments : gmap string pyval) : M string :=
  if bool_decide (name = "execute_ccip_transfer") then
    try_except (execute_ccip_transfer arguments) (fun e => mret (error_msg e))
  else if bool_decide (name = "find_supported_chain") then
    find_supported_chain arguments
  else
    mret ("❌ Unknown tool: " +:+ name).

End Handler.

(** ** Vocabulary of the properties *)

(** [x] is [a] up to letter case and white space at both ends. *)
Definition case_space_variant (x a : string) : Prop :=
  exists l m r,
    x = l +:+ m +:+ r /\ all_space l = true /\ all_space r = true /\ lower m = lower a.

(** The five optional parameters, as the handler reads them. *)
Record params : Type := {
  token_type : pyval;
  token_amount : pyval;
  eth_amount : pyval;
  transfer_amount : pyval;
  message : pyval
}.

Definition optional_parameters (arguments : gmap string pyval) : params :=
  {| token_type := get arguments "token_type" (PyStr "CCIP-BnM");
     token_amount := get arguments "token_amount" (PyFloat "0.1");
     eth_amount := get arguments "eth_amount" (PyFloat "0.05");
     transfer_amount := get arguments "transfer_amount" (PyFloat "0.069");
     message := get arguments "message" (PyStr "Cross-chain transfer via MCP") |}.

(** The eight capability calls of a transfer from [s] to [r], in the order
    of the specification. *)
Definition eight_steps (s r : string) (p : params) : list capability :=
  [ deploy_sender_contract s;
    send_tokens_to_sender_contract s (token_type p) (token_amount p);
    send_eth_to_contract s (eth_amount p);
    allow_destination_chain s r;
    deploy_receiver_contract r;
    allow_source_chain r s;
    allow_sender_on_receiver s r;
    transfer s r (message p) (transfer_amount p) ].

(** A reference executor: the calls of [steps] in order, each answered by
    the client on the log so far, stopping at the first one that raises.
    It returns the log and how the run ended. *)
Fixpoint run_steps (client : Client) (steps : list capability) (log : call_log)
    : call_log * outcome unit :=
  match steps with
  | [] => (log, Return tt)
  | op :: steps' =>
      match client log op with
      | Return h => run_steps client steps' (log ++ [(op, Return h)])
      | Raise e => (log ++ [(op, Raise e)], Raise e)
      | RaiseBase e => (log ++ [(op, RaiseBase e)], RaiseBase e)
      end
  end.

(** How a run ends on the answer [o] of its last call. *)
Definition stop_of (o : outcome string) : outcome unit :=
  match o with
  | Return _ => Return tt
  | Raise e => Raise e
  | RaiseBase e => RaiseBase e
  end.

(** What the handler returns for a run of the eight steps that ended with
    [result]. *)
Definition render (result : outcome unit) (success : string) : outcome string :=
  match result with
  | Return _ => Return success
  | Raise e => Return (error_msg e)
  | RaiseBase e => RaiseBase e
  end.

Definition succeeded (entry : capability * outcome string) : Prop :=
  exists h, entry.2 = Return h.

(** What the [i]-th call of the log returned (counting from 0). *)
Definition handle (log : call_log) (i : nat) : string :=
  match log !! i with
  | Some (_, Return h) => h
  | _ => ""
  end.

(** The pieces of the progress narrative. *)
Definition start_text (s r : string) (p : params) : string :=
  "🚀 **Starting CCIP Cross-Chain Transfer**" +:+ nl +:+ nl +:+
  "📋 **Configuration:**" +:+ nl +:+
  "• **From:** " +:+ s +:+ nl +:+
  "• **To:** " +:+ r +:+ nl +:+
  "• **Token:** " +:+ str (token_type p) +:+ nl +:+
  "• **Amount:** " +:+ str (transfer_amount p) +:+ nl +:+
  "• **Message:** " +:+ dq +:+ str (message p) +:+ dq +:+ nl +:+ nl +:+
  "⏳ **Executing all steps...**" +:+ nl +:+ nl.

(** The line appended before the call of step [k]. *)
Definition step_start (k : nat) (s r : string) (p : params) : string :=
  match k with
  | 1%nat => "🔄 **Step 1:** Deploying sender contract..." +:+ nl
  | 2%nat => "🔄 **Step 2:** Sending " +:+ str (token_amount p) +:+ " " +:+
             str (token_type p) +:+ " to sender..." +:+ nl
  | 3%nat => "🔄 **Step 3:** Sending " +:+ str (eth_amount p) +:+ " ETH for gas..." +:+ nl
  | 4%nat => "🔄 **Step 4:** Configuring destination chain (" +:+ r +:+ ")..." +:+ nl
  | 5%nat => "🔄 **Step 5:** Deploying receiver contract..." +:+ nl
  | 6%nat => "🔄 **Step 6:** Configuring source chain (" +:+ s +:+ ")..." +:+ nl
  | 7%nat => "🔄 **Step 7:** Linking sender and receiver contracts..." +:+ nl
  | _ => "🔄 **Step 8:** Executing cross-chain transfer of " +:+
         str (transfer_amount p) +:+ " " +:+ str (token_type p) +:+ "..." +:+ nl
  end.

(** The line appended when the call of step [k] (1 to 7) has returned [h]. *)
Definition step_done (k : nat) (h : string) : string :=
  match k with
  | 1%nat => "✅ Sender contract deployed: `"
  | 2%nat => "✅ Tokens sent: `"
  | 3%nat => "✅ ETH sent: `"
  | 4%nat => "✅ Destination configured: `"
  | 5%nat => "✅ Receiver contract deployed: `"
  | 6%nat => "✅ Source configured: `"
  | _ => "✅ Contracts linked: `"
  end +:+ h +:+ "`" +:+ nl +:+ nl.

Definition complete_text (s r : string) (p : params)
    (sender_contract receiver_contract transfer_url : string) : string :=
  "🎉 **TRANSFER COMPLETE!**" +:+ nl +:+ nl +:+
  "✨ **Success!** Cross-chain transfer executed successfully!" +:+ nl +:+ nl +:+
  "🔗 **Track Transfer:** " +:+ transfer_url +:+ nl +:+ nl +:+
  "📊 **Summary:**" +:+ nl +:+
  "• **Sender Contract:** `" +:+ sender_contract +:+ "`" +:+ nl +:+
  "• **Receiver Contract:** `" +:+ receiver_contract +:+ "`" +:+ nl +:+
  "• **From:** " +:+ s +:+ " " +:+ nl +:+
  "• **To:** " +:+ r +:+ nl +:+
  "• **Amount:** " +:+ str (transfer_amount p) +:+ " " +:+ str (token_type p) +:+ nl +:+
  "• **Message:** " +:+ dq +:+ str (message p) +:+ dq +:+ nl +:+ nl +:+
  "🎯 **All 8 steps completed successfully!**" +:+ nl.

(** The progress lines appended up to and including the start line of
    step [k]; [log] gives what the earlier calls returned. *)
Fixpoint progress_lines (k : nat) (s r : string) (p : params) (log : call_log)
    : list string :=
  match k with
  | O => []
  | S O => [step_start 1 s r p]
  | S k' => progress_lines k' s r p log ++ [step_done k' (handle log (k' - 1)); step_start k s r p]
  end.

Definition concat_text (l : list string) : string := foldr String.append "" l.

(** The text of a run whose eight calls returned. *)
Definition success_text (s r : string) (p : params) (log : call_log) : string :=
  start_text s r p +:+ concat_text (progress_lines 8 s r p log) +:+
  complete_text s r p (handle log 0) (handle log 4) (handle log 7).

(** The two step markers with which every progress line starts. *)
Definition step_marker : string := "🔄".
Definition done_marker : string := "✅".

(** A request passes validation: the three required arguments are there,
    both chains resolve, to different identifiers [s] and [r]. *)
Definition validated (arguments : gmap string pyval) (s r : string) (private_key : pyval)
    : Prop :=
  exists sender_input receiver_input,
    arguments !! "sender_chain" = Some (PyStr sender_input) /\
    arguments !! "receiver_chain" = Some (PyStr receiver_input) /\
    arguments !! "private_key" = Some private_key /\
    find_closest_chain sender_input = Return (Some s) /\
    find_closest_chain receiver_input = Return (Some r) /\
    s <> r.

(** Test doubles: a client whose call number [fail_at] (from 0) raises
    [cause] and whose other calls return a handle. *)
Definition mock_client (fail_at : nat) (cause : string) : Client :=
  fun log op =>
    if bool_decide (length log = fail_at) then Raise cause
    else Return match op with
                | deploy_sender_contract _ => "0x5e4d"
                | deploy_receiver_contract _ => "0x4ec1"
                | transfer _ _ _ _ => "https://ccip.chain.link/msg/0x77"
                | _ => "0x7a11"
                end.

Definition mock_sdk (fail_at : nat) (cause : string) : pyval -> outcome Client :=
  fun _ => Return (mock_client fail_at cause).

(** A client whose call number [stop_at] is interrupted: it raises [e],
    which is no [Exception]. *)
Definition interrupted_client (stop_at : nat) (e : string) : Client :=
  fun log op =>
    if bool_decide (length log = stop_at) then RaiseBase e
    else mock_client (S stop_at) "" log op.

Definition interrupted_sdk (stop_at : nat) (e : string) : pyval -> outcome Client :=
  fun _ => Return (interrupted_client stop_at e).

Definition request (sender receiver : string) : gmap string pyval :=
  {[ "sender_chain" := PyStr sender; "receiver_chain" := PyStr receiver;
     "private_key" := PyStr "0xkey" ]}.

(** The texts of the three validation failures. *)
Definition invalid_chain_text (side input : string) : string :=
  "❌ Invalid " +:+ side +:+ " chain '" +:+ input +:+ "'. Supported: " +:+ repr_list keys.

Definition same_chain_text : string := "❌ Sender and receiver chains must be different".

(** [error_msg e] is [error_head], [e], [error_tail]. *)
Definition error_head : string :=
  "❌ **Transfer Failed**" +:+ nl +:+ nl +:+ "**Error:** ".

Definition error_tail : string :=
  nl +:+ nl +:+
  "**Troubleshooting:**" +:+ nl +:+
  "• Check your private key has sufficient funds on both chains" +:+ nl +:+
  "• Verify chain names are correct" +:+ nl +:+
  "• Ensure token type is supported" +:+ nl +:+
  "• Check network connectivity" +:+ nl +:+
  nl +:+
  "**Supported Chains:** " +:+ repr_list keys +:+ nl +:+
  "**Supported Tokens:** " +:+ supported_tokens +:+ nl.

(** [m] and [t] differ at a position that both have: [m] does not start
    [t], whatever follows [t]. *)
Fixpoint clash (m t : string) : bool :=
  match m, t with
  | String a m', String b t' => if ascii_dec a b then clash m' t' else true
  | _, _ => false
  end.

(** At no position of [h] can an occurrence of [m] begin, whatever follows
    [h]. *)
Fixpoint no_start (m h : string) : bool :=
  match h with
  | EmptyString => true
  | String _ h' => clash m h && no_start m h'
  end.

(** No non-empty suffix of [m] starts [s]: an occurrence of [m] cannot
    begin before [s] and end inside it. *)
Fixpoint no_overlap (m s : string) : bool :=
  match m with
  | EmptyString => true
  | String _ m' => negb (String.prefix m s) && no_overlap m' s
  end.

(** ** The tool list *)

(** One entry of the [properties] of an input schema. *)
Record property : Type := {
  p_type : string;
  p_description : string;
  p_default : option pyval
}.

Record Schema : Type := {
  schema_type : string;
  properties : list (string * property);
  required : list string
}.

Record Tool : Type := {
  name : string;
  description : string;
  inputSchema : Schema
}.

(** [handle_list_tools()] *)
Definition handle_list_tools : list Tool :=
  [ {| name := "execute_ccip_transfer";
       description := "Execute complete CCIP cross-chain transfer in one go";
       inputSchema :=
         {| schema_type := "object";
            properties :=
              [ ("sender_chain",
                 {| p_type := "string";
                    p_description :=
                      "Source blockchain (ethereum, arbitrum, base, avalanche, etc.)";
                    p_default := None |});
                ("receiver_chain",
                 {| p_type := "string";
                    p_description := "Destination blockchain";
                    p_default := None |});
                ("private_key",
                 {| p_type := "string";
                    p_description := "Private key for transactions";
                    p_default := None |});
                ("token_type",
                 {| p_type := "string";
                    p_description := "Token to transfer (LINK, CCIP-BnM, USDC, CCIP-LnM)";
                    p_default := Some (PyStr "CCIP-BnM") |});
                ("token_amount",
                 {| p_type := "number";
                    p_description := "Amount of tokens to fund sender contract";
                    p_default := Some (PyFloat "0.1") |});
                ("eth_amount",
                 {| p_type := "number";
                    p_description := "Amount of ETH for gas fees";
                    p_default := Some (PyFloat "0.05") |});
                ("transfer_amount",
                 {| p_type := "number";
                    p_description := "Amount to transfer cross-chain";
                    p_default := Some (PyFloat "0.069") |});
                ("message",
                 {| p_type := "string";
                    p_description := "Message to send with transfer";
                    p_default := Some (PyStr "Cross-chain transfer via MCP") |}) ];
            required := ["sender_chain"; "receiver_chain"; "private_key"] |} |};
    {| name := "find_supported_chain";
       description := "Find supported chain name from user input";
       inputSchema :=
         {| schema_type := "object";
            properties :=
              [ ("chain_input",
                 {| p_type := "string";
                    p_description := "User input for chain name";
                    p_default := None |}) ];
            required := ["chain_input"] |} |} ].

(** The tool called [tool], when it is listed. *)
Definition find_tool (tool : string) : option Tool :=
  match list_find (fun t => name t = tool) handle_list_tools with
  | Some (_, t) => Some t
  | None => None
  end.



(** [str(AttributeError)] of [v.lower()] on a value that is no [str]. *)
Definition no_lower (v : pyval) : string :=
  "'" +:+ type_name v +:+ "' object has no attribute 'lower'".

Definition is_str (v : pyval) : bool :=
  match v with PyStr _ => true | _ => false end.

(** The texts of the branch [find_supported_chain]. *)
Definition chain_found_text (chain_input chain : string) : string :=
  "✅ **Chain Found:** `" +:+ chain_input +:+ "` → `" +:+ chain +:+ "`".

Definition no_match_text (chain_input : string) : string :=
  "❌ **No Match:** `" +:+ chain_input +:+ "`" +:+ nl +:+ nl +:+
  "Supported: " +:+ repr_list keys.

(** The word that the fuzzy pass compares with the aliases. *)
Definition normalize (user_input : string) : string := strip (lower user_input).

(** * Properties *)

(** ** [difflib]: the blocks stay inside their windows and the loops end *)

Module difflib_facts.
Import difflib.

Section Bounds.
Variables a b : list ascii.

Lemma inside_mono alo ahi ahi' blo bhi m :
  ahi <= ahi' -> inside alo ahi blo bhi m -> inside alo ahi' blo bhi m.
Proof. destruct m as [[i j] k]. unfold inside. lia. Qed.

Lemma scan_row_inside i alo blo bhi j2len js :
  alo <= i -> runs_below alo blo i j2len ->
  forall newj2len best,
    runs_below alo blo (i + 1) newj2len ->
    inside alo (i + 1) blo bhi best ->
    runs_below alo blo (i + 1) (scan_row i blo bhi j2len js newj2len best).1 /\
    inside alo (i + 1) blo bhi (scan_row i blo bhi j2len js newj2len best).2.
Proof.
  intros Hi Hprev. induction js as [|j js IH]; intros newj2len best Hnew Hbest.
  - done.
  - cbn [scan_row]. destruct (Z.ltb_spec j blo) as [Hlo|Hlo]; [by apply IH|].
    destruct (Z.leb_spec bhi j) as [Hhi|Hhi]; [done|].
    assert (Hk : default 0 (j2len !! (j - 1)) + 1 <= i + 1 - alo /\
                 default 0 (j2len !! (j - 1)) + 1 <= j - blo + 1).
    { destruct (j2len !! (j - 1)) as [v|] eqn:E; cbn.
      - apply Hprev in E. lia.
      - lia. }
    destruct best as [[bi bj] bs]. apply IH.
    + intros j' v. rewrite lookup_insert_Some. intros [[<- <-]|[_ E]]; [lia|].
      by apply Hnew.
    + destruct (Z.ltb_spec bs (default 0 (j2len !! (j - 1)) + 1)); [|done].
      unfold inside in *. lia.
Qed.

Lemma scan_rows_inside alo blo bhi n :
  forall i j2len best,
    alo <= i -> runs_below alo blo i j2len -> inside alo i blo bhi best ->
    inside alo (i + Z.of_nat n) blo bhi (scan_rows a b n i blo bhi j2len best).2.
Proof.
  induction n as [|n IH]; intros i j2len best Hi Hrun Hbest.
  - cbn. by rewrite Z.add_0_r.
  - cbn [scan_rows].
    set (js := match a !! Z.to_nat i with Some c => b2j b c | None => [] end).
    destruct (scan_row_inside i alo blo bhi j2len js Hi Hrun ∅ best) as [H1 H2].
    { intros j v. by rewrite lookup_empty. }
    { eapply inside_mono; [|done]. lia. }
    destruct (scan_row i blo bhi j2len js ∅ best) as [newj2len best'].
    replace (i + Z.of_nat (S n)) with (i + 1 + Z.of_nat n) by lia.
    apply IH; [lia|done|done].
Qed.

Lemma extend_left_inside alo ahi blo bhi fuel :
  forall m, inside alo ahi blo bhi m ->
    inside alo ahi blo bhi (extend_left a b fuel alo blo m).
Proof.
  induction fuel as [|fuel IH]; intros [[i j] k] Hm; [done|].
  cbn [extend_left]. destruct (extend_left_test a b alo blo (i, j, k)) eqn:E; [|done].
  apply IH. unfold extend_left_test in E.
  apply andb_prop in E as [E _]. apply andb_prop in E as [E1 E2].
  apply Z.ltb_lt in E1, E2. unfold inside in *. lia.
Qed.

Lemma extend_right_inside alo ahi blo bhi fuel :
  forall m, inside alo ahi blo bhi m ->
    inside alo ahi blo bhi (extend_right a b fuel ahi bhi m).
Proof.
  induction fuel as [|fuel IH]; intros [[i j] k] Hm; [done|].
  cbn [extend_right]. destruct (extend_right_test a b ahi bhi (i, j, k)) eqn:E; [|done].
  apply IH. unfold extend_right_test in E.
  apply andb_prop in E as [E _]. apply andb_prop in E as [E1 E2].
  apply Z.ltb_lt in E1, E2. unfold inside in *. lia.
Qed.

(** The fuel given to the two extension loops lets them run until their
    test fails. *)
Lemma extend_left_done alo blo fuel :
  forall m, (Z.to_nat (m.1.1 - alo) <= fuel)%nat ->
    extend_left_test a b alo blo (extend_left a b fuel alo blo m) = false.
Proof.
  induction fuel as [|fuel IH]; intros [[i j] k] Hf; cbn in Hf.
  - cbn. destruct (Z.ltb_spec alo i); [lia|done].
  - cbn [extend_left]. destruct (extend_left_test a b alo blo (i, j, k)) eqn:E; [|done].
    apply IH. cbn. lia.
Qed.

Lemma extend_right_done ahi bhi fuel :
  forall m, (Z.to_nat (ahi - (m.1.1 + m.2)) <= fuel)%nat ->
    extend_right_test a b ahi bhi (extend_right a b fuel ahi bhi m) = false.
Proof.
  induction fuel as [|fuel IH]; intros [[i j] k] Hf; cbn in Hf.
  - cbn. destruct (Z.ltb_spec (i + k) ahi); [lia|done].
  - cbn [extend_right]. destruct (extend_right_test a b ahi bhi (i, j, k)) eqn:E; [|done].
    apply IH. cbn. lia.
Qed.

Lemma find_longest_match_inside alo ahi blo bhi :
  alo <= ahi -> blo <= bhi ->
  inside alo ahi blo bhi (find_longest_match a b alo ahi blo bhi).
Proof.
  intros Ha Hb. unfold find_longest_match.
  pose proof (scan_rows_inside alo blo bhi (Z.to_nat (ahi - alo)) alo ∅ (alo, blo, 0)) as H.
  destruct (scan_rows a b (Z.to_nat (ahi - alo)) alo blo bhi ∅ (alo, blo, 0)) as [j2len m].
  apply extend_right_inside, extend_left_inside.
  replace ahi with (alo + Z.of_nat (Z.to_nat (ahi - alo))) at 1 by lia.
  apply H; [lia| |].
  - intros j v. by rewrite lookup_empty.
  - unfold inside. lia.
Qed.

(** The loop of [get_matching_blocks] ends: every turn lowers the sum of
    the weights of the queued windows. *)
Lemma matching_loop_total fuel :
  forall queue blocks,
    Forall valid queue ->
    (queue_weight queue < fuel)%nat ->
    is_Some (matching_loop a b fuel queue blocks).
Proof.
  induction fuel as [|fuel IH]; intros queue blocks Hv Hw; [lia|].
  destruct queue as [|[[[alo ahi] blo] bhi] queue]; [by eexists|].
  cbn [matching_loop]. apply Forall_cons in Hv as [[Ha Hb] Hv].
  pose proof (find_longest_match_inside alo ahi blo bhi Ha Hb) as Hin.
  destruct (find_longest_match a b alo ahi blo bhi) as [[i j] k].
  unfold queue_weight in Hw. cbn [foldr weight] in Hw. fold (queue_weight queue) in Hw.
  unfold inside in Hin.
  destruct (Z.eqb_spec k 0) as [->|Hk]; [apply IH; [done|lia]|].
  destruct ((alo <? i) && (blo <? j)) eqn:E1;
    destruct ((i + k <? ahi) && (j + k <? bhi)) eqn:E2;
    apply IH;
    repeat (apply Forall_cons; split); try done;
    try (unfold valid; lia);
    unfold queue_weight; cbn [foldr weight]; fold (queue_weight queue); lia.
Qed.

Lemma get_matching_blocks_total : is_Some (get_matching_blocks a b).
Proof.
  apply matching_loop_total.
  - apply Forall_cons. split; [|done]. unfold valid, len. lia.
  - unfold queue_weight, len. cbn [foldr weight]. lia.
Qed.

End Bounds.
End difflib_facts.


(** ** Python strings: [lower], [strip] and [in] *)

Module Py_facts.

Lemma app_cons c s t : String c s +:+ t = String c (s +:+ t).
Proof. reflexivity. Qed.

Lemma app_nil_l s : "" +:+ s = s.
Proof. reflexivity. Qed.

Lemma string_app_assoc s t u : (s +:+ t) +:+ u = s +:+ t +:+ u.
Proof. induction s as [|c s IH]; [done|]. by rewrite !app_cons, IH. Qed.

Lemma lower_app s t : lower (s +:+ t) = lower s +:+ lower t.
Proof. induction s as [|c s IH]; [done|]. rewrite app_cons. cbn. by rewrite IH. Qed.

Lemma is_space_lower_char c : is_space (lower_char c) = is_space c.
Proof. by destruct c as [[] [] [] [] [] [] [] []]. Qed.

Lemma all_space_lower s : all_space (lower s) = all_space s.
Proof. induction s as [|c s IH]; [done|]. cbn. by rewrite is_space_lower_char, IH. Qed.

Lemma lstrip_spaces_app l s : all_space l = true -> lstrip (l +:+ s) = lstrip s.
Proof.
  induction l as [|c l IH]; [done|]. cbn. intros [Hc Hl]%andb_prop.
  rewrite app_cons. cbn. rewrite Hc. by apply IH.
Qed.

Lemma length_lstrip s : (String.length (lstrip s) <= String.length s)%nat.
Proof. induction s as [|c s IH]; cbn; [lia|]. destruct (is_space c); cbn; lia. Qed.

Lemma lstrip_fixed_app m r : m <> "" -> lstrip m = m -> lstrip (m +:+ r) = m +:+ r.
Proof.
  destruct m as [|c m]; [done|]. intros _. rewrite app_cons. cbn.
  destruct (is_space c); [|done]. intros H.
  pose proof (length_lstrip m) as Hlen. rewrite H in Hlen. cbn in Hlen. lia.
Qed.

Lemma rstrip_spaces r : all_space r = true -> rstrip r = "".
Proof.
  induction r as [|c r IH]; [done|]. cbn. intros [Hc Hr]%andb_prop.
  by rewrite IH, Hc.
Qed.

Lemma rstrip_app_spaces m r : all_space r = true -> rstrip (m +:+ r) = rstrip m.
Proof.
  intros Hr. induction m as [|c m IH].
  - by apply rstrip_spaces.
  - rewrite app_cons. cbn. by rewrite IH.
Qed.

(** Padding with white space around a string that [strip] keeps as it is. *)
Lemma strip_padded l m r :
  all_space l = true -> all_space r = true ->
  m <> "" -> lstrip m = m -> rstrip m = m ->
  strip (l +:+ m +:+ r) = m.
Proof.
  intros Hl Hr Hm Hlm Hrm. unfold strip.
  rewrite lstrip_spaces_app by done. rewrite lstrip_fixed_app by done.
  by rewrite rstrip_app_spaces.
Qed.

Lemma prefix_app s t : String.prefix s (s +:+ t) = true.
Proof.
  induction s as [|c s IH]; [by destruct t|].
  rewrite app_cons. cbn. destruct (ascii_dec c c); [done|congruence].
Qed.

Lemma contains_prefix s t : contains s (s +:+ t) = true.
Proof.
  pose proof (prefix_app s t) as H. destruct (s +:+ t); cbn in *; by rewrite H.
Qed.

(** [sub in p + sub + q] *)
Lemma contains_app p sub q : contains sub (p +:+ sub +:+ q) = true.
Proof.
  induction p as [|c p IH]; [exact (contains_prefix sub q)|].
  rewrite app_cons. cbn. rewrite IH. apply orb_true_r.
Qed.

End Py_facts.

(** ** The registry and the resolver *)

Import Py_facts.

(** Checked by evaluation on the registry: aliases of two entries differ
    after case folding. *)
Lemma registry_checked :
  Forall (fun e1 => Forall (fun e2 => e1.1 <> e2.1 ->
            Forall (fun a1 => Forall (fun a2 => lower a1 <> lower a2) e2.2) e1.2)
          SUPPORTED_CHAINS) SUPPORTED_CHAINS.
Proof. refine (bool_decide_unpack _ _). vm_compute. exact I. Qed.

(** Checked by evaluation: a lower-cased alias is kept by [strip], is in
    [all_aliases], is matched by the direct pass to its own entry and scores
    1 against itself. *)
Lemma aliases_checked :
  Forall (fun e => Forall (fun a =>
            lower a <> "" /\ lstrip (lower a) = lower a /\ rstrip (lower a) = lower a /\
            lower a ∈ all_aliases /\
            direct_match SUPPORTED_CHAINS (lower a) = Some e.1) e.2)
         SUPPORTED_CHAINS.
Proof. refine (bool_decide_unpack _ _). vm_compute. exact I. Qed.

Lemma self_score_checked :
  Forall (fun a => Qle_bool 0.6 (difflib.score a a) = true) all_aliases.
Proof. refine (bool_decide_unpack _ _). vm_compute. exact I. Qed.

Lemma mapping_total : Forall (fun a => is_Some (chain_mapping !! a)) all_aliases.
Proof. refine (bool_decide_unpack _ _). vm_compute. exact I. Qed.

Lemma mapping_checked : map_Forall (fun _ c => c ∈ keys) chain_mapping.
Proof. refine (bool_decide_unpack _ _). vm_compute. exact I. Qed.

Lemma keys_checked :
  Forall (fun e => e.1 <> "" /\ e.1 ∈ e.2 /\ find_closest_chain e.1 = Return (Some e.1))
         SUPPORTED_CHAINS.
Proof. refine (bool_decide_unpack _ _). vm_compute. exact I. Qed.

Lemma alias_facts c aliases a :
  (c, aliases) ∈ SUPPORTED_CHAINS -> a ∈ aliases ->
  lower a <> "" /\ lstrip (lower a) = lower a /\ rstrip (lower a) = lower a /\
  lower a ∈ all_aliases /\ direct_match SUPPORTED_CHAINS (lower a) = Some c.
Proof.
  intros He Ha. pose proof aliases_checked as H.
  rewrite Forall_forall in H. specialize (H _ He). cbn in H.
  rewrite Forall_forall in H. by apply H.
Qed.

Lemma direct_match_Some items u c :
  direct_match items u = Some c ->
  exists aliases a, (c, aliases) ∈ items /\ a ∈ aliases /\ u = lower a.
Proof.
  induction items as [|[k aliases] items IH]; [done|]. cbn.
  case_bool_decide as Hin.
  - intros [= <-]. apply list_elem_of_fmap in Hin as (a & -> & Ha).
    exists aliases, a. split; [left|done].
  - intros (al & a & H1 & H2)%IH. exists al, a. split; [by right|done].
Qed.

Lemma direct_match_resolves x c :
  direct_match SUPPORTED_CHAINS (strip (lower x)) = Some c ->
  find_closest_chain x = Return (Some c).
Proof. intros H. unfold find_closest_chain. by rewrite H. Qed.

Lemma py_max_elem l r : difflib.py_max l = Some r -> r ∈ l.
Proof.
  destruct l as [|x l]; [done|]. cbn. intros [= <-].
  revert x. induction l as [|y l IH]; intros x; cbn; [left|].
  destruct (difflib.tuple_gt y x).
  - right. apply IH.
  - specialize (IH x). apply elem_of_cons in IH as [->|IH]; [left|by do 2 right].
Qed.

(** A match returned by [get_close_matches] is one of the possibilities
    and passed the three tests against the cutoff. *)
Lemma get_close_matches_elem word possibilities cutoff m :
  m ∈ difflib.get_close_matches word possibilities cutoff ->
  m ∈ possibilities /\ difflib.close_enough cutoff word m = true.
Proof.
  unfold difflib.get_close_matches, difflib.nlargest1.
  destruct (difflib.py_max _) as [r|] eqn:E; cbn; [|by intros ?%elem_of_nil].
  intros ->%list_elem_of_singleton. apply py_max_elem in E.
  apply list_elem_of_fmap in E as (y & -> & Hy). cbn.
  by apply list_elem_of_filter in Hy as [? ?].
Qed.

(** [find_closest_chain] raises nothing: the key looked up in
    [chain_mapping] is one of the aliases it was filled with. *)
Lemma find_closest_chain_total x : exists r, find_closest_chain x = Return r.
Proof.
  unfold find_closest_chain.
  destruct (direct_match _ _); [by eexists|].
  destruct (difflib.get_close_matches _ _ _) as [|m ms] eqn:E; [by eexists|].
  assert (Hm : m ∈ all_aliases).
  { eapply get_close_matches_elem. rewrite E. left. }
  pose proof mapping_total as H. rewrite Forall_forall in H.
  destruct (H _ Hm) as [c ->]. by eexists.
Qed.

Lemma find_closest_chain_key x c :
  find_closest_chain x = Return (Some c) -> c ∈ keys.
Proof.
  unfold find_closest_chain.
  destruct (direct_match _ _) as [k|] eqn:D.
  - intros [= <-]. apply direct_match_Some in D as (aliases & a & He & _).
    apply (list_elem_of_fmap_2 fst) in He. exact He.
  - destruct (difflib.get_close_matches _ _ _) as [|m ms]; [done|].
    destruct (chain_mapping !! m) as [k|] eqn:L; [|done].
    intros [= <-]. exact (mapping_checked _ _ L).
Qed.

Lemma key_facts c :
  c ∈ keys ->
  c <> "" /\ (exists aliases, (c, aliases) ∈ SUPPORTED_CHAINS /\ c ∈ aliases) /\
  find_closest_chain c = Return (Some c).
Proof.
  intros ([k aliases] & -> & He)%list_elem_of_fmap.
  pose proof keys_checked as H. rewrite Forall_forall in H.
  destruct (H _ He) as (H1 & H2 & H3). cbn in *. eauto.
Qed.

Lemma normalize_variant x a c aliases :
  (c, aliases) ∈ SUPPORTED_CHAINS -> a ∈ aliases -> case_space_variant x a ->
  strip (lower x) = lower a.
Proof.
  intros He Ha (l & m & r & -> & Hl & Hr & Hm).
  destruct (alias_facts c aliases a He Ha) as (H1 & H2 & H3 & _).
  rewrite !lower_app, Hm. apply strip_padded; by rewrite ?all_space_lower.
Qed.

(** C7.  The registry has exactly four entries, under four distinct
    identifiers, and the alias lists of two different identifiers share no
    alias after case folding. *)
Theorem registry_four_disjoint :
  length SUPPORTED_CHAINS = 4%nat /\
  NoDup keys /\
  forall c1 aliases1 c2 aliases2 a1 a2,
    (c1, aliases1) ∈ SUPPORTED_CHAINS -> (c2, aliases2) ∈ SUPPORTED_CHAINS ->
    c1 <> c2 -> a1 ∈ aliases1 -> a2 ∈ aliases2 -> lower a1 <> lower a2.
Proof.
  split; [reflexivity|]. split.
  - refine (bool_decide_unpack _ _). vm_compute. exact I.
  - intros c1 al1 c2 al2 a1 a2 H1 H2 Hne Ha1 Ha2.
    pose proof registry_checked as H.
    rewrite Forall_forall in H. specialize (H _ H1).
    rewrite Forall_forall in H. specialize (H _ H2 Hne).
    rewrite Forall_forall in H. specialize (H _ Ha1).
    rewrite Forall_forall in H. exact (H _ Ha2).
Qed.

Lemma registry_four_disjoint_witness : lower "eth" <> lower "base".
Proof.
  apply (proj2 (proj2 registry_four_disjoint)
           "ethereum_sepolia"
           ["ethereum"; "eth"; "sepolia"; "ethereum sepolia"; "eth sepolia"; "ethereum_sepolia"]
           "base_sepolia" ["base"; "base sepolia"; "base_sepolia"; "coinbase"]
           "eth" "base").
  - vm_compute. do 0 right. left.
  - vm_compute. do 1 right. left.
  - discriminate.
  - do 1 right. left.
  - left.
Defined.

(** C5.  An input that is a registered alias of a chain up to letter case
    and white space at both ends is resolved to that chain by the direct
    pass, which [find_closest_chain] runs first and whose answer it returns
    whatever the fuzzy scores of the other aliases are. *)
Theorem exact_pass_wins c aliases a x :
  (c, aliases) ∈ SUPPORTED_CHAINS -> a ∈ aliases -> case_space_variant x a ->
  direct_match SUPPORTED_CHAINS (strip (lower x)) = Some c /\
  find_closest_chain x = Return (Some c).
Proof.
  intros He Ha Hx.
  assert (D : direct_match SUPPORTED_CHAINS (strip (lower x)) = Some c).
  { rewrite (normalize_variant x a c aliases He Ha Hx).
    by destruct (alias_facts c aliases a He Ha) as (_ & _ & _ & _ & ?). }
  split; [done|]. by apply direct_match_resolves.
Qed.

Lemma exact_pass_wins_witness :
  find_closest_chain "  ARB Sepolia " = Return (Some "arbitrum_sepolia").
Proof.
  apply (exact_pass_wins "arbitrum_sepolia"
           ["arbitrum"; "arb"; "arbitrum sepolia"; "arbitrum_sepolia"; "arb sepolia"]
           "arb sepolia" "  ARB Sepolia ").
  - do 2 right. left.
  - do 4 right. left.
  - exists "  ", "ARB Sepolia", " ". repeat split; reflexivity.
Defined.

(** C6.  The four literal resolutions of the specification, with
    [arbitrun] found by the fuzzy pass at score 7/8; and an input none of
    whose aliases scores 0.6 or more is resolved to absence.  No input makes
    the resolver raise. *)
Theorem resolve_examples_and_absence :
  find_closest_chain "eth" = Return (Some "ethereum_sepolia") /\
  find_closest_chain "ETH SEPOLIA " = Return (Some "ethereum_sepolia") /\
  (direct_match SUPPORTED_CHAINS "arbitrun" = None /\
   (difflib.score "arbitrun" "arbitrum" == 7 # 8)%Q /\
   find_closest_chain "arbitrun" = Return (Some "arbitrum_sepolia")) /\
  find_closest_chain "xyz123" = Return None /\
  (forall x,
     (forall a, a ∈ all_aliases -> (difflib.score (strip (lower x)) a < 0.6)%Q) ->
     find_closest_chain x = Return None) /\
  (forall x, exists r, find_closest_chain x = Return r).
Proof.
  split; [by vm_compute|]. split; [by vm_compute|]. split; [by vm_compute|].
  split; [by vm_compute|]. split; [|apply find_closest_chain_total].
  intros x Hlow. unfold find_closest_chain.
  destruct (direct_match _ _) as [c|] eqn:D.
  - apply direct_match_Some in D as (aliases & a & He & Ha & Hn).
    destruct (alias_facts c aliases a He Ha) as (_ & _ & _ & Hin & _).
    pose proof self_score_checked as Hs. rewrite Forall_forall in Hs.
    specialize (Hs _ Hin). apply Qle_bool_iff in Hs.
    specialize (Hlow _ Hin). rewrite Hn in Hlow.
    exfalso. by apply (Qlt_not_le _ _ Hlow).
  - destruct (difflib.get_close_matches _ _ _) as [|m ms] eqn:E; [done|].
    destruct (get_close_matches_elem (strip (lower x)) all_aliases 0.6%Q m) as [Hin Hc].
    { rewrite E. left. }
    unfold difflib.close_enough in Hc. apply andb_prop in Hc as [_ Hc].
    apply Qle_bool_iff in Hc. exfalso. exact (Qlt_not_le _ _ (Hlow _ Hin) Hc).
Qed.

Lemma resolve_examples_and_absence_witness :
  find_closest_chain "Polygon!" = Return None.
Proof.
  apply (proj1 (proj2 (proj2 (proj2 (proj2 resolve_examples_and_absence))))).
  intros a Ha. vm_compute in Ha.
  repeat (apply elem_of_cons in Ha as [->|Ha]; [by vm_compute|]).
  by apply elem_of_nil in Ha.
Defined.

(** C9.  Every canonical identifier is an alias of its own entry and
    resolves to itself; hence resolving the result of a resolution gives
    that result again. *)
Theorem resolve_idempotent :
  (forall c aliases, (c, aliases) ∈ SUPPORTED_CHAINS ->
     c ∈ aliases /\ find_closest_chain c = Return (Some c)) /\
  (forall x c, find_closest_chain x = Return (Some c) ->
     find_closest_chain c = Return (Some c)).
Proof.
  split.
  - intros c aliases He. pose proof keys_checked as H.
    rewrite Forall_forall in H. by destruct (H _ He) as (_ & ? & ?).
  - intros x c Hx. apply find_closest_chain_key in Hx.
    by destruct (key_facts c Hx) as (_ & _ & ?).
Qed.

Lemma resolve_idempotent_witness :
  find_closest_chain "avalanche_fuji" = Return (Some "avalanche_fuji").
Proof.
  apply (proj2 resolve_idempotent "avalanch fuji" "avalanche_fuji").
  by vm_compute.
Defined.

(** ** The handler and the reference executor *)

Lemma find_closest_chain_nonempty x c : find_closest_chain x = Return (Some c) -> c <> "".
Proof. intros H%find_closest_chain_key. by destruct (key_facts c H). Qed.

Lemma bind_lift_Return {A B} (a : A) (k : A -> M B) log :
  (lift (Return a) ≫= k) log = k a log.
Proof. reflexivity. Qed.

Lemma bind_call {B} client op (k : string -> M B) log :
  (call client op ≫= k) log =
    match client log op with
    | Return h => k h (log ++ [(op, Return h)])
    | Raise e => (Raise e, log ++ [(op, Raise e)])
    | RaiseBase e => (RaiseBase e, log ++ [(op, RaiseBase e)])
    end.
Proof. unfold mbind, M_bind, call. by destruct (client log op). Qed.

(** Past validation the handler is the reference executor on the eight
    steps, followed by the rendering of its result. *)
Lemma execute_refines CCIPClient arguments s r private_key client :
  validated arguments s r private_key ->
  CCIPClient private_key = Return client ->
  handle_call_tool CCIPClient "execute_ccip_transfer" arguments [] =
    let '(log, result) :=
      run_steps client (eight_steps s r (optional_parameters arguments)) [] in
    (render result (success_text s r (optional_parameters arguments) log), log).
Proof.
  intros (si & ri & Hs & Hr & Hk & Fs & Fr & Hne) Hc.
  pose proof (find_closest_chain_nonempty _ _ Fs) as Hs0.
  pose proof (find_closest_chain_nonempty _ _ Fr) as Hr0.
  unfold handle_call_tool, try_except, execute_ccip_transfer.
  rewrite bool_decide_eq_true_2 by done.
  unfold getitem. rewrite Hs, Hr, Hk. rewrite !bind_lift_Return. cbv beta.
  cbn [find_closest_chain_of]. rewrite Fs, Fr, !bind_lift_Return. cbv beta.
  cbn [falsy]. rewrite !bool_decide_eq_false_2 by congruence.
  cbv zeta. rewrite Hc, bind_lift_Return. cbv beta.
  cbn [default from_option id].
  unfold eight_steps.
  cbn [token_type token_amount eth_amount transfer_amount message optional_parameters].
  do 8 (rewrite bind_call; cbn [run_steps];
        destruct (client _ _) as [?h|?e|?e]; [cbn [app]|reflexivity|reflexivity]).
  unfold mret, M_ret, render. do 2 f_equal.
  unfold success_text, progress_lines, concat_text, complete_text, start_text,
    step_start, step_done, handle.
  cbn [lookup list_lookup foldr app token_type token_amount eth_amount transfer_amount
       message optional_parameters Nat.sub].
  rewrite !string_app_assoc. reflexivity.
Qed.

Lemma not_succeeded_Raise op e : ~ succeeded (op, Raise e).
Proof. by intros [h ?]. Qed.

Lemma succeeded_Return op o : succeeded (op, o) -> exists h, o = Return h.
Proof. by intros [h ?]; exists h. Qed.

(** The executor logs a prefix of the steps: all of them when none raises,
    and up to the first one that raises otherwise. *)
Lemma run_steps_spec client steps :
  forall log0,
    exists new,
      (run_steps client steps log0).1 = log0 ++ new /\
      (((run_steps client steps log0).2 = Return tt /\
        new.*1 = steps /\ Forall succeeded new) \/
       exists k op o,
         ~ succeeded (op, o) /\ (run_steps client steps log0).2 = stop_of o /\
         new.*1 = take (S k) steps /\ length new = S k /\ (k < length steps)%nat /\
         Forall succeeded (take k new) /\ new !! k = Some (op, o)).
Proof.
  induction steps as [|op steps IH]; intros log0; cbn [run_steps].
  - exists []. cbn. rewrite app_nil_r. split; [done|]. by left.
  - destruct (client log0 op) as [h|e|e] eqn:E.
    + destruct (IH (log0 ++ [(op, Return h)])) as (new & H1 & H2).
      exists ((op, Return h) :: new). split.
      { rewrite H1. by rewrite <- app_assoc. }
      destruct H2 as [(K0 & K1 & K2)|(k & op' & o & K & K0 & K1 & K2 & K3 & K4 & K5)].
      * left. cbn. rewrite K1. split; [done|]. split; [done|].
        apply Forall_cons. split; [by eexists|done].
      * right. exists (S k), op', o. cbn. rewrite K1, K2.
        repeat split; [done|done|lia| |done].
        apply Forall_cons. split; [by eexists|done].
    + exists [(op, Raise e)]. cbn. split; [done|]. right.
      exists 0%nat, op, (Raise e).
      repeat split; cbn; try done; [by intros [h ?]|lia].
    + exists [(op, RaiseBase e)]. cbn. split; [done|]. right.
      exists 0%nat, op, (RaiseBase e).
      repeat split; cbn; try done; [by intros [h ?]|lia].
Qed.

(** Every entry of the executor's log holds what the client answered to
    that call on the log before it. *)
Lemma run_steps_answers client steps :
  forall log0 i op o,
    (length log0 <= i)%nat ->
    (run_steps client steps log0).1 !! i = Some (op, o) ->
    client (take i (run_steps client steps log0).1) op = o.
Proof.
  induction steps as [|op0 steps IH]; intros log0 i op o Hi; cbn [run_steps].
  - cbn. intros H. apply lookup_lt_Some in H. lia.
  - assert (Hone : forall o1 new,
              client log0 op0 = o1 ->
              (log0 ++ (op0, o1) :: new) !! i = Some (op, o) ->
              i = length log0 -> client (take i (log0 ++ (op0, o1) :: new)) op = o).
    { intros o1 new Hans Hlook ->.
      rewrite list_lookup_middle in Hlook by done. injection Hlook as <- <-.
      by rewrite take_app_length. }
    destruct (client log0 op0) as [h|e|e] eqn:E.
    + destruct (decide (i = length log0)) as [Heq|Hne].
      * destruct (run_steps_spec client steps (log0 ++ [(op0, Return h)]))
          as (new & H1 & _).
        rewrite H1, <- app_assoc. cbn [app]. intros H. by apply Hone.
      * apply IH. rewrite length_app. cbn. lia.
    + cbn [fst]. intros H. apply (Hone (Raise e) []); [done|done|].
      apply lookup_lt_Some in H. rewrite length_app in H. cbn in H. lia.
    + cbn [fst]. intros H. apply (Hone (RaiseBase e) []); [done|done|].
      apply lookup_lt_Some in H. rewrite length_app in H. cbn in H. lia.
Qed.

(** The calls the executor logs are first ones of the steps. *)
Lemma run_steps_prefix client steps :
  (run_steps client steps []).1.*1 `prefix_of` steps.
Proof.
  destruct (run_steps_spec client steps []) as (new & H1 & H2).
  cbn [app] in H1. rewrite H1.
  destruct H2 as [(_ & -> & _)|(k & op & o & _ & _ & -> & _)].
  - exists []. by rewrite app_nil_r.
  - apply prefix_take.
Qed.

(** A run all of whose logged calls returned made every step. *)
Lemma run_all_succeeded client steps log result :
  run_steps client steps [] = (log, result) ->
  Forall succeeded log -> result = Return tt /\ log.*1 = steps.
Proof.
  intros E Hall. destruct (run_steps_spec client steps []) as (new & H1 & H2).
  rewrite E in H1, H2. cbn in H1, H2. subst new.
  destruct H2 as [(? & ? & _)|(k & op & o & K & _ & _ & _ & _ & _ & K5)]; [done|].
  rewrite Forall_forall in Hall. apply list_elem_of_lookup_2 in K5.
  by apply Hall in K5.
Qed.

(** A run one of whose logged calls did not return stopped there. *)
Lemma run_stopped_at client steps log result k op o :
  run_steps client steps [] = (log, result) ->
  log !! k = Some (op, o) -> ~ succeeded (op, o) ->
  result = stop_of o /\ (k < length steps)%nat /\ log.*1 = take (S k) steps /\
  length log = S k /\ Forall succeeded (take k log).
Proof.
  intros E Hk Hno. destruct (run_steps_spec client steps []) as (new & H1 & H2).
  rewrite E in H1, H2. cbn in H1, H2. subst new.
  destruct H2 as [(_ & _ & Hall)|(k' & op' & o' & K & K0 & K1 & K2 & K3 & K4 & K5)].
  - rewrite Forall_forall in Hall. apply list_elem_of_lookup_2 in Hk.
    by apply Hall in Hk.
  - assert (k' = k) as Heq.
    { pose proof (lookup_lt_Some _ _ _ Hk) as Hlt.
      destruct (decide (k < k')%nat) as [Hlt'|]; [|lia].
      rewrite Forall_forall in K4.
      assert (Hin : (op, o) ∈ take k' log).
      { apply list_elem_of_lookup. exists k. by rewrite lookup_take_lt. }
      by apply K4 in Hin. }
    subst k'. rewrite Hk in K5. injection K5 as <- <-. done.
Qed.

(** A run one of whose logged calls raised stopped there. *)
Lemma run_failed_at client steps log result k op cause :
  run_steps client steps [] = (log, result) ->
  log !! k = Some (op, Raise cause) ->
  result = Raise cause /\ (k < length steps)%nat /\ log.*1 = take (S k) steps /\
  length log = S k /\ Forall succeeded (take k log).
Proof.
  intros E Hk. apply (run_stopped_at _ _ _ _ _ _ _ E Hk), not_succeeded_Raise.
Qed.

(** The log of a run past validation is the log of the executor. *)
Lemma execute_log CCIPClient arguments s r private_key client :
  validated arguments s r private_key ->
  CCIPClient private_key = Return client ->
  (handle_call_tool CCIPClient "execute_ccip_transfer" arguments []).2 =
    (run_steps client (eight_steps s r (optional_parameters arguments)) []).1.
Proof.
  intros Hv Hc. rewrite (execute_refines _ _ _ _ _ _ Hv Hc).
  by destruct (run_steps client _ []).
Qed.

Lemma eight_steps_NoDup s r p : NoDup (eight_steps s r p).
Proof.
  unfold eight_steps.
  repeat (apply NoDup_cons; split;
          [rewrite ?not_elem_of_cons; repeat split; (discriminate || apply not_elem_of_nil)|]).
  apply NoDup_nil_2.
Qed.

Lemma run_pair CCIPClient name arguments :
  handle_call_tool CCIPClient name arguments [] =
    ((handle_call_tool CCIPClient name arguments []).1,
     (handle_call_tool CCIPClient name arguments []).2).
Proof. apply surjective_pairing. Qed.

Lemma mock_request_validated :
  validated (request "eth" "base") "ethereum_sepolia" "base_sepolia" (PyStr "0xkey").
Proof. exists "eth", "base". repeat split; by vm_compute. Qed.

(** C1.  A run that passes validation, gets its client and all of whose
    capability calls return makes exactly the eight calls, each once and in
    the order of the specification, each answered by the client on the
    calls made before; its text ends with the completion block, which
    carries the handles that the client returned to
    [deploy_sender_contract], [deploy_receiver_contract] and [transfer]. *)
Theorem successful_run_makes_eight_calls
    CCIPClient arguments s r private_key client text log :
  validated arguments s r private_key ->
  CCIPClient private_key = Return client ->
  handle_call_tool CCIPClient "execute_ccip_transfer" arguments [] = (text, log) ->
  Forall succeeded log ->
  let p := optional_parameters arguments in
  log.*1 = eight_steps s r p /\
  NoDup (log.*1) /\
  log = (run_steps client (eight_steps s r p) []).1 /\
  (forall i op o, log !! i = Some (op, o) -> client (take i log) op = o) /\
  exists sender_contract receiver_contract transfer_url narrative,
    log !! 0%nat = Some (deploy_sender_contract s, Return sender_contract) /\
    log !! 4%nat = Some (deploy_receiver_contract r, Return receiver_contract) /\
    log !! 7%nat = Some (transfer s r (message p) (transfer_amount p), Return transfer_url) /\
    client [] (deploy_sender_contract s) = Return sender_contract /\
    client (take 4 log) (deploy_receiver_contract r) = Return receiver_contract /\
    client (take 7 log) (transfer s r (message p) (transfer_amount p)) =
      Return transfer_url /\
    text = Return (narrative +:+
                   complete_text s r p sender_contract receiver_contract transfer_url).
Proof.
  intros Hv Hc Hrun Hall p. rewrite (execute_refines _ _ _ _ _ _ Hv Hc) in Hrun.
  fold p in Hrun.
  pose proof (run_steps_answers client (eight_steps s r p) []) as Hans.
  destruct (run_steps client (eight_steps s r p) []) as [log' result] eqn:E.
  injection Hrun as <- <-. cbn [fst] in Hans.
  assert (Hclient : forall i op o,
            log' !! i = Some (op, o) -> client (take i log') op = o).
  { intros i op o. apply Hans. cbn. lia. }
  destruct (run_all_succeeded _ _ _ _ E Hall) as [-> Hlog].
  split; [done|]. split; [rewrite Hlog; apply eight_steps_NoDup|].
  split; [done|]. split; [done|].
  unfold eight_steps in Hlog.
  do 8 (destruct log' as [|[? o] log'];
        [discriminate Hlog|];
        apply Forall_cons in Hall as [[? Ho]%succeeded_Return Hall]; subst o;
        cbn in Hlog; injection Hlog as -> Hlog).
  destruct log'; [|discriminate Hlog].
  eexists _, _, _, _. split; [done|]. split; [done|]. split; [done|].
  split; [exact (Hclient 0%nat _ _ eq_refl)|].
  split; [exact (Hclient 4%nat _ _ eq_refl)|].
  split; [exact (Hclient 7%nat _ _ eq_refl)|].
  unfold render, success_text. by rewrite <- string_app_assoc.
Qed.

Lemma successful_run_makes_eight_calls_witness :
  (handle_call_tool (mock_sdk 8 "") "execute_ccip_transfer" (request "eth" "base") []).2.*1 =
    eight_steps "ethereum_sepolia" "base_sepolia" (optional_parameters (request "eth" "base")).
Proof.
  refine (proj1 (successful_run_makes_eight_calls (mock_sdk 8 "") (request "eth" "base")
                   "ethereum_sepolia" "base_sepolia" (PyStr "0xkey") (mock_client 8 "")
                   _ _ mock_request_validated eq_refl (run_pair _ _ _) _)).
  vm_compute. repeat (apply Forall_cons; split; [by eexists|]). apply Forall_nil_2.
Defined.

(** C2.  When the client raises at the call of step [k], the log holds the
    calls of the steps 1 to [k] and nothing else, each once: no later step
    is called, none is called again, nothing is undone; and the text
    returned is the failure text, which holds the text of the error that
    the client raised, as it is, between its fixed head and tail. *)
Theorem failed_step_halts_run
    CCIPClient arguments s r private_key client text log k op cause :
  validated arguments s r private_key ->
  CCIPClient private_key = Return client ->
  handle_call_tool CCIPClient "execute_ccip_transfer" arguments [] = (text, log) ->
  (1 <= k)%nat -> log !! (k - 1)%nat = Some (op, Raise cause) ->
  let steps := eight_steps s r (optional_parameters arguments) in
  (k <= 8)%nat /\
  log.*1 = take k steps /\ NoDup (log.*1) /\ length log = k /\
  Forall succeeded (take (k - 1) log) /\
  (forall j later, (k <= j)%nat -> steps !! j = Some later -> later ∉ log.*1) /\
  text = Return (error_msg cause) /\
  log = (run_steps client steps []).1 /\
  (forall i op' o, log !! i = Some (op', o) -> client (take i log) op' = o) /\
  steps !! (k - 1)%nat = Some op /\
  client (take (k - 1) log) op = Raise cause /\
  text = Return (error_head +:+ cause +:+ error_tail) /\
  contains cause (error_head +:+ cause +:+ error_tail) = true.
Proof.
  intros Hv Hc Hrun Hk Hfail steps. rewrite (execute_refines _ _ _ _ _ _ Hv Hc) in Hrun.
  fold steps in Hrun.
  pose proof (run_steps_answers client steps []) as Hans.
  destruct (run_steps client steps []) as [log' result] eqn:E.
  injection Hrun as <- <-. cbn [fst] in Hans.
  assert (Hclient : forall i op' o,
            log' !! i = Some (op', o) -> client (take i log') op' = o).
  { intros i op' o. apply Hans. cbn. lia. }
  destruct (run_failed_at _ _ _ _ _ _ _ E Hfail) as (-> & H1 & H2 & H3 & H4).
  replace (S (k - 1)) with k in * by lia.
  pose proof (eight_steps_NoDup s r (optional_parameters arguments)) as Hnd.
  fold steps in Hnd.
  split; [cbn in H1; lia|]. split; [done|].
  split; [rewrite H2; eapply sublist_NoDup; [exact Hnd|apply sublist_take]|].
  split; [done|]. split; [done|].
  split.
  { intros j later Hj Hlater Hin. rewrite H2 in Hin.
    apply list_elem_of_lookup in Hin as [i Hi].
    apply lookup_take_Some in Hi as [Hi Hlt].
    pose proof (NoDup_lookup _ _ _ _ Hnd Hi Hlater). lia. }
  split; [done|]. split; [done|]. split; [done|].
  split.
  { assert (Hop : log'.*1 !! (k - 1)%nat = Some op)
      by (by rewrite list_lookup_fmap, Hfail).
    rewrite H2 in Hop. by apply lookup_take_Some in Hop as [? _]. }
  split; [by apply Hclient|]. split; [done|]. apply contains_app.
Qed.

Lemma failed_step_halts_run_witness :
  (handle_call_tool (mock_sdk 4 "execution reverted") "execute_ccip_transfer"
     (request "eth" "base") []).2.*1 =
    [ deploy_sender_contract "ethereum_sepolia";
      send_tokens_to_sender_contract "ethereum_sepolia" (PyStr "CCIP-BnM") (PyFloat "0.1");
      send_eth_to_contract "ethereum_sepolia" (PyFloat "0.05");
      allow_destination_chain "ethereum_sepolia" "base_sepolia";
      deploy_receiver_contract "base_sepolia" ].
Proof.
  refine (proj1 (proj2 (failed_step_halts_run (mock_sdk 4 "execution reverted")
                   (request "eth" "base") "ethereum_sepolia" "base_sepolia" (PyStr "0xkey")
                   (mock_client 4 "execution reverted") _ _ 5%nat
                   (deploy_receiver_contract "base_sepolia") "execution reverted"
                   mock_request_validated eq_refl (run_pair _ _ _) _ _))).
  - lia.
  - by vm_compute.
Defined.

(** The three validation failures return their text with an empty log. *)
Lemma validation_cases CCIPClient arguments sender_input receiver_input private_key :
  arguments !! "sender_chain" = Some (PyStr sender_input) ->
  arguments !! "receiver_chain" = Some (PyStr receiver_input) ->
  arguments !! "private_key" = Some private_key ->
  let run := handle_call_tool CCIPClient "execute_ccip_transfer" arguments [] in
  (find_closest_chain sender_input = Return None ->
     run = (Return (invalid_chain_text "sender" sender_input), [])) /\
  (forall s, find_closest_chain sender_input = Return (Some s) ->
     find_closest_chain receiver_input = Return None ->
     run = (Return (invalid_chain_text "receiver" receiver_input), [])) /\
  (forall s, find_closest_chain sender_input = Return (Some s) ->
     find_closest_chain receiver_input = Return (Some s) ->
     run = (Return same_chain_text, [])).
Proof.
  intros Hs Hr Hk run. subst run.
  unfold handle_call_tool, try_except, execute_ccip_transfer.
  rewrite bool_decide_eq_true_2 by done.
  unfold getitem. rewrite Hs, Hr, Hk, !bind_lift_Return. cbv beta.
  cbn [find_closest_chain_of]. split; [|split].
  - intros Fs. destruct (find_closest_chain_total receiver_input) as [rc Fr].
    by rewrite Fs, Fr, !bind_lift_Return.
  - intros s Fs Fr. rewrite Fs, Fr, !bind_lift_Return. cbv beta. cbn [falsy].
    rewrite bool_decide_eq_false_2 by by eapply find_closest_chain_nonempty.
    reflexivity.
  - intros s Fs Fr. rewrite Fs, Fr, !bind_lift_Return. cbv beta. cbn [falsy].
    rewrite bool_decide_eq_false_2 by by eapply find_closest_chain_nonempty.
    rewrite bool_decide_eq_true_2 by done. reflexivity.
Qed.


(** C4.  Validation comes before any capability call: an unresolvable
    sender gives the invalid-sender text; otherwise an unresolvable receiver
    gives the invalid-receiver text; otherwise equal resolved chains give
    the same-chain text; and in the three cases the call log is empty. *)
Theorem validation_precedes_steps
    CCIPClient arguments sender_input receiver_input private_key :
  arguments !! "sender_chain" = Some (PyStr sender_input) ->
  arguments !! "receiver_chain" = Some (PyStr receiver_input) ->
  arguments !! "private_key" = Some private_key ->
  let run := handle_call_tool CCIPClient "execute_ccip_transfer" arguments [] in
  (find_closest_chain sender_input = Return None ->
     run = (Return (invalid_chain_text "sender" sender_input), [])) /\
  (forall s, find_closest_chain sender_input = Return (Some s) ->
     find_closest_chain receiver_input = Return None ->
     run = (Return (invalid_chain_text "receiver" receiver_input), [])) /\
  (forall s, find_closest_chain sender_input = Return (Some s) ->
     find_closest_chain receiver_input = Return (Some s) ->
     run = (Return same_chain_text, [])).
Proof. apply validation_cases. Qed.

Lemma validation_precedes_steps_witness :
  handle_call_tool (mock_sdk 8 "") "execute_ccip_transfer" (request "polygon" "base") [] =
    (Return (invalid_chain_text "sender" "polygon"), []).
Proof.
  refine (proj1 (validation_precedes_steps (mock_sdk 8 "") (request "polygon" "base")
                   "polygon" "base" (PyStr "0xkey") _ _ _) _); by vm_compute.
Defined.

(** C8.  An optional argument that the request does not carry takes its
    documented default; the values so read are the ones the capability
    calls receive and the text shows. *)
Theorem absent_optionals_take_defaults
    CCIPClient arguments s r private_key client text log :
  validated arguments s r private_key ->
  CCIPClient private_key = Return client ->
  handle_call_tool CCIPClient "execute_ccip_transfer" arguments [] = (text, log) ->
  let p := optional_parameters arguments in
  log.*1 `prefix_of` eight_steps s r p /\
  (Forall succeeded log -> text = Return (success_text s r p log)) /\
  (arguments !! "token_type" = None -> token_type p = PyStr "CCIP-BnM") /\
  (arguments !! "token_amount" = None -> token_amount p = PyFloat "0.1") /\
  (arguments !! "eth_amount" = None -> eth_amount p = PyFloat "0.05") /\
  (arguments !! "transfer_amount" = None -> transfer_amount p = PyFloat "0.069") /\
  (arguments !! "message" = None -> message p = PyStr "Cross-chain transfer via MCP").
Proof.
  intros Hv Hc Hrun p. rewrite (execute_refines _ _ _ _ _ _ Hv Hc) in Hrun.
  fold p in Hrun.
  destruct (run_steps client (eight_steps s r p) []) as [log' failure] eqn:E.
  injection Hrun as <- <-. split; [|split].
  - pose proof (run_steps_prefix client (eight_steps s r p)) as Hp.
    by rewrite E in Hp.
  - intros Hall. by destruct (run_all_succeeded _ _ _ _ E Hall) as [-> _].
  - subst p. unfold optional_parameters, get. cbn.
    repeat split; by intros ->.
Qed.

Lemma absent_optionals_take_defaults_witness :
  transfer_amount (optional_parameters (request "eth" "base")) = PyFloat "0.069".
Proof.
  refine (proj1 (proj2 (proj2 (proj2 (proj2 (proj2
            (absent_optionals_take_defaults (mock_sdk 8 "") (request "eth" "base")
               "ethereum_sepolia" "base_sepolia" (PyStr "0xkey") (mock_client 8 "")
               _ _ mock_request_validated eq_refl (run_pair _ _ _))))))) _).
  by vm_compute.
Defined.

(** ** The failure texts *)

Lemma error_msg_split e : error_msg e = error_head +:+ e +:+ error_tail.
Proof. reflexivity. Qed.

Lemma prefix_trans m l t :
  String.prefix m l = true -> String.prefix l t = true -> String.prefix m t = true.
Proof.
  revert l t. induction m as [|a m IH]; intros l t; [by destruct t|].
  destruct l as [|b l]; [done|]. destruct t as [|c t]; [done|]. cbn.
  destruct (ascii_dec a b) as [->|]; [|done].
  destruct (ascii_dec b c) as [->|]; [|done]. apply IH.
Qed.

(** A text that holds [l] holds every prefix of [l]. *)
Lemma contains_prefix_of m l t :
  String.prefix m l = true -> contains l t = true -> contains m t = true.
Proof.
  intros Hm. induction t as [|c t IH]; cbn [contains].
  - rewrite !orb_false_r. by apply prefix_trans.
  - intros [H|H]%orb_prop.
    + by rewrite (prefix_trans _ _ _ Hm H).
    + rewrite (IH H). apply orb_true_r.
Qed.

Lemma prefix_app_tail m :
  forall c s, no_overlap m s = true ->
    String.prefix m (c +:+ s) = true -> String.prefix m c = true.
Proof.
  induction m as [|a m IH]; intros c s Hno; [by destruct c|].
  cbn [no_overlap] in Hno. apply andb_prop in Hno as [H1 H2].
  destruct c as [|b c].
  - rewrite app_nil_l. intros H. by rewrite H in H1.
  - rewrite app_cons. cbn. destruct (ascii_dec a b); [|done]. by apply IH.
Qed.

(** An occurrence of [m] in [c] followed by [s] lies in [c] when [m] neither
    occurs in [s] nor can end inside it. *)
Lemma contains_app_tail m c s :
  no_overlap m s = true -> contains m s = false ->
  contains m (c +:+ s) = true -> contains m c = true.
Proof.
  intros Hno Hs. induction c as [|b c IH].
  - rewrite app_nil_l. by rewrite Hs.
  - rewrite app_cons. cbn [contains]. intros [H|H]%orb_prop.
    + rewrite <- app_cons in H. by rewrite (prefix_app_tail _ _ _ Hno H).
    + rewrite (IH H). apply orb_true_r.
Qed.

(** A step marker in the failure text comes from the cause. *)
Lemma marker_in_error_msg m cause :
  m = step_marker \/ m = done_marker ->
  contains m (error_msg cause) = true -> contains m cause = true.
Proof.
  intros Hm. rewrite error_msg_split.
  assert (Hhead : forall x, contains m (error_head +:+ x) = contains m x).
  { by destruct Hm as [-> | ->]. }
  rewrite Hhead. apply contains_app_tail; by destruct Hm as [-> | ->].
Qed.

Lemma progress_line_marker k s r p log line :
  (k <= 8)%nat -> line ∈ progress_lines k s r p log ->
  String.prefix step_marker line = true \/ String.prefix done_marker line = true.
Proof.
  intros Hk. induction k as [|k IH]; [by intros ?%elem_of_nil|].
  destruct k as [|k]; [by intros ->%list_elem_of_singleton; left|].
  change (progress_lines (S (S k)) s r p log) with
    (progress_lines (S k) s r p log ++
       [step_done (S k) (handle log (S k - 1)); step_start (S (S k)) s r p]).
  rewrite elem_of_app, !elem_of_cons, elem_of_nil.
  intros [H|[->|[->|[]]]].
  - apply IH; [lia|done].
  - right. by do 7 (destruct k as [|k]; [reflexivity|]).
  - left. by do 7 (destruct k as [|k]; [reflexivity|]).
Qed.

Lemma contains_skip p s sub : contains sub s = true -> contains sub (p +:+ s) = true.
Proof.
  intros H. induction p as [|c p IH]; [done|].
  rewrite app_cons. cbn [contains]. rewrite IH. apply orb_true_r.
Qed.

Lemma invalid_chain_text_contains side input :
  contains side (invalid_chain_text side input) = true /\
  contains input (invalid_chain_text side input) = true /\
  contains (repr_list keys) (invalid_chain_text side input) = true.
Proof.
  unfold invalid_chain_text. split; [apply contains_app|]. split.
  - transitivity (contains input (("❌ Invalid " +:+ side +:+ " chain '") +:+ input +:+
                                  "'. Supported: " +:+ repr_list keys)).
    + by rewrite !string_app_assoc.
    + apply contains_app.
  - transitivity (contains (repr_list keys)
                    (("❌ Invalid " +:+ side +:+ " chain '" +:+ input +:+ "'. Supported: ")
                     +:+ repr_list keys +:+ "")).
    + rewrite !string_app_assoc. do 6 f_equal.
    + apply contains_app.
Qed.

Lemma error_msg_contains cause :
  contains "Transfer Failed" (error_msg cause) = true /\
  contains cause (error_msg cause) = true /\
  contains (repr_list keys) (error_msg cause) = true /\
  contains supported_tokens (error_msg cause) = true.
Proof.
  split; [|split; [|split]].
  - exact (contains_app "❌ **" "Transfer Failed" _).
  - rewrite error_msg_split. apply contains_app.
  - rewrite error_msg_split, <- string_app_assoc. by apply contains_skip.
  - rewrite error_msg_split, <- string_app_assoc. by apply contains_skip.
Qed.

(** C3, as the code has it.  Every failing invocation returns a text that
    names what failed.  An unresolved chain: the side, the raw input and the
    list of the supported chains.  Equal chains: the fixed sentence alone.
    A failure of the client construction or of a step: the failure text,
    with the cause verbatim and the lists of the supported chains and
    tokens; that text is a function of the cause alone, the same whichever
    call raised. *)
Theorem failure_texts
    CCIPClient arguments sender_input receiver_input private_key text log :
  arguments !! "sender_chain" = Some (PyStr sender_input) ->
  arguments !! "receiver_chain" = Some (PyStr receiver_input) ->
  arguments !! "private_key" = Some private_key ->
  handle_call_tool CCIPClient "execute_ccip_transfer" arguments [] = (text, log) ->
  (find_closest_chain sender_input = Return None ->
     text = Return (invalid_chain_text "sender" sender_input)) /\
  (forall s, find_closest_chain sender_input = Return (Some s) ->
     find_closest_chain receiver_input = Return None ->
     text = Return (invalid_chain_text "receiver" receiver_input)) /\
  (forall s, find_closest_chain sender_input = Return (Some s) ->
     find_closest_chain receiver_input = Return (Some s) ->
     text = Return same_chain_text) /\
  (forall s r cause, validated arguments s r private_key ->
     CCIPClient private_key = Raise cause ->
     text = Return (error_msg cause) /\ log = []) /\
  (forall s r client k op cause, validated arguments s r private_key ->
     CCIPClient private_key = Return client ->
     log !! k = Some (op, Raise cause) ->
     text = Return (error_msg cause)) /\
  (forall side input,
     contains side (invalid_chain_text side input) = true /\
     contains input (invalid_chain_text side input) = true /\
     contains (repr_list keys) (invalid_chain_text side input) = true) /\
  (forall cause,
     contains "Transfer Failed" (error_msg cause) = true /\
     contains cause (error_msg cause) = true /\
     contains (repr_list keys) (error_msg cause) = true /\
     contains supported_tokens (error_msg cause) = true).
Proof.
  intros Hs Hr Hk Hrun.
  destruct (validation_cases CCIPClient arguments sender_input receiver_input private_key
              Hs Hr Hk) as (V1 & V2 & V3).
  split; [intros F; rewrite (V1 F) in Hrun; by injection Hrun as <- <-|].
  split; [intros s F1 F2; rewrite (V2 s F1 F2) in Hrun; by injection Hrun as <- <-|].
  split; [intros s F1 F2; rewrite (V3 s F1 F2) in Hrun; by injection Hrun as <- <-|].
  split; [|split; [|split]].
  - intros s r cause (si & ri & Hs' & Hr' & Hk' & Fs & Fr & Hne) Hc.
    revert Hrun. unfold handle_call_tool, try_except, execute_ccip_transfer.
    rewrite bool_decide_eq_true_2 by done.
    unfold getitem. rewrite Hs', Hr', Hk', !bind_lift_Return. cbv beta.
    cbn [find_closest_chain_of]. rewrite Fs, Fr, !bind_lift_Return. cbv beta.
    cbn [falsy].
    rewrite !bool_decide_eq_false_2
      by (congruence || by eapply find_closest_chain_nonempty).
    cbv zeta. rewrite Hc. cbn. by intros [= <- <-].
  - intros s r client k op cause Hv Hc Hfail.
    rewrite (execute_refines _ _ _ _ _ _ Hv Hc) in Hrun.
    destruct (run_steps client _ []) as [log' failure] eqn:E.
    injection Hrun as <- <-.
    by destruct (run_failed_at _ _ _ _ _ _ _ E Hfail) as (-> & _).
  - apply invalid_chain_text_contains.
  - apply error_msg_contains.
Qed.

Lemma failure_texts_witness :
  (handle_call_tool (mock_sdk 4 "execution reverted") "execute_ccip_transfer"
     (request "eth" "base") []).1 = Return (error_msg "execution reverted").
Proof.
  refine (proj1 (proj2 (proj2 (proj2 (proj2
            (failure_texts (mock_sdk 4 "execution reverted") (request "eth" "base")
               "eth" "base" (PyStr "0xkey") _ _ _ _ _ (run_pair _ _ _))))))
            "ethereum_sepolia" "base_sepolia" (mock_client 4 "execution reverted")
            4%nat (deploy_receiver_contract "base_sepolia") "execution reverted"
            mock_request_validated eq_refl _); by vm_compute.
Defined.

(** C3 fails as stated.  The same-chain failure text lists neither the
    supported chains nor the tokens, and the unresolved-chain text lists no
    tokens.  A run that fails at step 1 and a run that fails at step 5 with
    the same cause return the same text, so no function of the text gives
    the index of the failed step. *)
Lemma failure_text_counterexample :
  (handle_call_tool (mock_sdk 8 "") "execute_ccip_transfer" (request "eth" "sepolia") [] =
     (Return same_chain_text, []) /\
   contains (repr_list keys) same_chain_text = false /\
   contains supported_tokens same_chain_text = false) /\
  (handle_call_tool (mock_sdk 8 "") "execute_ccip_transfer" (request "polygon" "base") [] =
     (Return (invalid_chain_text "sender" "polygon"), []) /\
   contains supported_tokens (invalid_chain_text "sender" "polygon") = false) /\
  ~ exists failedAtStep : outcome string -> nat,
      forall fail_at, (fail_at < 8)%nat ->
        failedAtStep
          (handle_call_tool (mock_sdk fail_at "out of gas") "execute_ccip_transfer"
             (request "eth" "base") []).1 = S fail_at.
Proof.
  split; [by vm_compute|]. split; [by vm_compute|].
  intros [f Hf].
  pose proof (Hf 0%nat ltac:(lia)) as H1. pose proof (Hf 4%nat ltac:(lia)) as H5.
  assert (E : (handle_call_tool (mock_sdk 0 "out of gas") "execute_ccip_transfer"
                 (request "eth" "base") []).1 =
              (handle_call_tool (mock_sdk 4 "out of gas") "execute_ccip_transfer"
                 (request "eth" "base") []).1) by by vm_compute.
  rewrite E in H1. rewrite H1 in H5. discriminate H5.
Qed.

Lemma clash_prefix m t x : clash m t = true -> String.prefix m (t +:+ x) = false.
Proof.
  revert t. induction m as [|a m IH]; intros [|b t]; try done.
  rewrite app_cons. cbn. destruct (ascii_dec a b); [apply IH|done].
Qed.

(** When no occurrence of [m] can begin inside [h], a text that starts with
    [m] occurs in [h] followed by [x] exactly when it occurs in [x]. *)
Lemma no_start_contains m h l x :
  no_start m h = true -> String.prefix m l = true ->
  contains l (h +:+ x) = contains l x.
Proof.
  intros Hno Hm. induction h as [|c h IH]; [by rewrite app_nil_l|].
  cbn [no_start] in Hno. apply andb_prop in Hno as [Hc Hno].
  rewrite app_cons. cbn [contains]. rewrite (IH Hno).
  destruct (String.prefix l (String c (h +:+ x))) eqn:P; [|done].
  pose proof (prefix_trans _ _ _ Hm P) as Q.
  by rewrite <- app_cons, (clash_prefix _ _ _ Hc) in Q.
Qed.

(** The marker with which the opening block of the narrative starts. *)
Lemma narrative_line_marker k s r p log line :
  (k <= 8)%nat -> line ∈ start_text s r p :: progress_lines k s r p log ->
  exists m, (m = "🚀" \/ m = step_marker \/ m = done_marker) /\
            String.prefix m line = true.
Proof.
  intros Hk [->|Hin]%elem_of_cons.
  - exists "🚀". split; [by left|reflexivity].
  - destruct (progress_line_marker _ _ _ _ _ _ Hk Hin) as [H|H].
    + exists step_marker. split; [by right; left|done].
    + exists done_marker. split; [by right; right|done].
Qed.

(** C10.  When the call of step [k] raises, the text returned is the
    failure message alone: the fixed head, the text of the error that the
    client raised, the fixed tail.  Nothing of the narrative is put into it:
    the opening block and the progress lines appended before the failure
    occur neither in the head nor in the tail, and none of them can begin
    in the head, so that one of them is found in the text only where the
    text of the error itself, followed by the tail, spells it.  When the
    error text holds no step marker, no progress line occurs in the text. *)
Theorem failure_discards_narrative
    CCIPClient arguments s r private_key client text log k op cause :
  validated arguments s r private_key ->
  CCIPClient private_key = Return client ->
  handle_call_tool CCIPClient "execute_ccip_transfer" arguments [] = (text, log) ->
  (1 <= k)%nat -> log !! (k - 1)%nat = Some (op, Raise cause) ->
  client (take (k - 1) log) op = Raise cause /\
  text = Return (error_msg cause) /\
  text = Return (error_head +:+ cause +:+ error_tail) /\
  (forall line,
     line ∈ start_text s r (optional_parameters arguments) ::
            progress_lines k s r (optional_parameters arguments) log ->
     contains line error_head = false /\
     contains line error_tail = false /\
     contains line (error_head +:+ cause +:+ error_tail) =
       contains line (cause +:+ error_tail)) /\
  (contains step_marker cause = false -> contains done_marker cause = false ->
   forall line,
     line ∈ progress_lines k s r (optional_parameters arguments) log ->
     contains line (error_msg cause) = false).
Proof.
  intros Hv Hc Hrun Hk Hfail. rewrite (execute_refines _ _ _ _ _ _ Hv Hc) in Hrun.
  destruct (run_steps client _ []) as [log' failure] eqn:E.
  injection Hrun as <- <-.
  destruct (run_failed_at _ _ _ _ _ _ _ E Hfail) as (-> & Hlt & _).
  split; [|split; [done|split; [done|split]]].
  - pose proof (run_steps_answers client
                  (eight_steps s r (optional_parameters arguments)) []
                  (k - 1)%nat op (Raise cause)) as Ha.
    rewrite E in Ha. cbn [fst] in Ha. apply Ha; [cbn; lia|done].
  - intros line Hin.
    apply narrative_line_marker in Hin as (m & Hm & Hp); [|cbn in Hlt; lia].
    split; [|split].
    + destruct (contains line error_head) eqn:C; [|done].
      apply (contains_prefix_of _ _ _ Hp) in C.
      by destruct Hm as [->|[->| ->]].
    + destruct (contains line error_tail) eqn:C; [|done].
      apply (contains_prefix_of _ _ _ Hp) in C.
      by destruct Hm as [->|[->| ->]].
    + apply (no_start_contains m); [|done].
      by destruct Hm as [->|[->| ->]].
  - intros Hno1 Hno2 line Hin.
    destruct (contains line (error_msg cause)) eqn:C; [|done].
    apply progress_line_marker in Hin as [Hp|Hp]; [| |cbn in Hlt; lia].
    + apply (contains_prefix_of _ _ _ Hp), marker_in_error_msg in C; [|by left].
      by rewrite C in Hno1.
    + apply (contains_prefix_of _ _ _ Hp), marker_in_error_msg in C; [|by right].
      by rewrite C in Hno2.
Qed.

Lemma failure_discards_narrative_witness :
  (handle_call_tool (mock_sdk 4 "execution reverted") "execute_ccip_transfer"
     (request "eth" "base") []).1 = Return (error_msg "execution reverted").
Proof.
  refine (proj1 (proj2 (failure_discards_narrative (mock_sdk 4 "execution reverted")
                   (request "eth" "base") "ethereum_sepolia" "base_sepolia" (PyStr "0xkey")
                   (mock_client 4 "execution reverted") _ _ 5%nat
                   (deploy_receiver_contract "base_sepolia") "execution reverted"
                   mock_request_validated eq_refl (run_pair _ _ _) _ _))).
  - lia.
  - by vm_compute.
Defined.

(** * Further properties of the code *)

(** ** The resolver *)

Lemma resolve_cases x :
  find_closest_chain x = Return None \/
  exists c, c ∈ keys /\ find_closest_chain x = Return (Some c).
Proof.
  destruct (find_closest_chain_total x) as [[c|] H]; [right|by left].
  exists c. split; [by eapply find_closest_chain_key|done].
Qed.

(** X1.  Whatever the input, [find_closest_chain] raises nothing and
    returns either absence or one of the four canonical identifiers. *)
Theorem resolve_returns_key_or_nothing x :
  find_closest_chain x = Return None \/
  exists c, c ∈ keys /\ find_closest_chain x = Return (Some c).
Proof. apply resolve_cases. Qed.

Lemma lower_lower s : lower (lower s) = lower s.
Proof.
  induction s as [|c s IH]; [done|]. cbn. rewrite IH. f_equal.
  by destruct c as [[] [] [] [] [] [] [] []].
Qed.

Lemma lstrip_spaces r : all_space r = true -> lstrip r = "".
Proof.
  induction r as [|c r IH]; [done|]. cbn. intros [Hc Hr]%andb_prop.
  rewrite Hc. by apply IH.
Qed.

Lemma strip_app_spaces s r : all_space r = true -> strip (s +:+ r) = strip s.
Proof.
  intros Hr. unfold strip. induction s as [|c s IH].
  - rewrite app_nil_l. by rewrite (lstrip_spaces r Hr).
  - rewrite app_cons. cbn [lstrip]. destruct (is_space c); [done|].
    rewrite <- app_cons. by apply rstrip_app_spaces.
Qed.

(** [strip] drops any white space put around a string. *)
Lemma strip_pad l s r :
  all_space l = true -> all_space r = true -> strip (l +:+ s +:+ r) = strip s.
Proof.
  intros Hl Hr. rewrite <- string_app_assoc, (strip_app_spaces _ r Hr).
  unfold strip. by rewrite lstrip_spaces_app.
Qed.

(** X2.  The resolver sees its input only through [strip(lower(..))]: white
    space put around an input and changes of letter case never change the
    answer. *)
Theorem resolve_ignores_case_and_padding l x y r :
  all_space l = true -> all_space r = true -> lower x = lower y ->
  find_closest_chain (l +:+ x +:+ r) = find_closest_chain y.
Proof.
  intros Hl Hr Hxy. unfold find_closest_chain.
  by rewrite !lower_app, Hxy, strip_pad by by rewrite all_space_lower.
Qed.

Lemma resolve_ignores_case_and_padding_witness :
  find_closest_chain "  ArBiTrUn " = find_closest_chain "arbitrun".
Proof.
  exact (resolve_ignores_case_and_padding "  " "ArBiTrUn" "arbitrun" " "
           eq_refl eq_refl eq_refl).
Defined.

Lemma length_list_ascii s : length (list_ascii_of_string s) = String.length s.
Proof. induction s as [|c s IH]; [done|]. cbn. by rewrite IH. Qed.

(** Checked by evaluation: a lower-cased alias has 3 to 16 characters, and
    [chain_mapping] sends it where the direct pass sends it. *)
Lemma alias_lengths_checked :
  Forall (fun m => (3 <= String.length m <= 16)%nat /\
                   chain_mapping !! m = direct_match SUPPORTED_CHAINS m) all_aliases.
Proof. refine (bool_decide_unpack _ _). vm_compute. exact I. Qed.

(** The first of the three tests of [get_close_matches] fails when the
    word is much shorter or much longer than the candidate. *)
Lemma real_quick_ratio_low (a b : list ascii) :
  (3 <= length a <= 16)%nat -> (length b <= 1 \/ 38 <= length b)%nat ->
  Qle_bool 0.6 (difflib.real_quick_ratio a b) = false.
Proof.
  intros Ha Hb. unfold difflib.real_quick_ratio, difflib._calculate_ratio, difflib.len.
  destruct (Z.eqb_spec (Z.of_nat (length a) + Z.of_nat (length b)) 0) as [E|E]; [lia|].
  unfold Qle_bool. cbn [Qnum Qden]. rewrite Z2Pos.id by lia.
  apply Z.leb_gt. lia.
Qed.

(** X3.  An input that [strip(lower(..))] leaves with at most one character,
    the empty and the blank inputs among them, or with 38 characters or
    more, is resolved to absence. *)
Theorem resolve_rejects_short_and_long x :
  (String.length (normalize x) <= 1 \/ 38 <= String.length (normalize x))%nat ->
  find_closest_chain x = Return None.
Proof.
  intros Hlen. unfold find_closest_chain. fold (normalize x).
  pose proof alias_lengths_checked as Hal. rewrite Forall_forall in Hal.
  destruct (direct_match _ _) as [c|] eqn:D.
  - apply direct_match_Some in D as (aliases & a & He & Ha & Hn).
    destruct (alias_facts c aliases a He Ha) as (_ & _ & _ & Hin & _).
    destruct (Hal _ Hin) as [Hl _]. rewrite Hn in Hlen. lia.
  - destruct (difflib.get_close_matches _ _ _) as [|m ms] eqn:E; [done|].
    destruct (get_close_matches_elem (normalize x) all_aliases 0.6%Q m) as [Hin Hc].
    { rewrite E. left. }
    destruct (Hal _ Hin) as [Hl _].
    unfold difflib.close_enough in Hc.
    apply andb_prop in Hc as [Hc _]. apply andb_prop in Hc as [Hc _].
    rewrite real_quick_ratio_low in Hc; [done| |]; by rewrite length_list_ascii.
Qed.

Lemma resolve_rejects_short_and_long_witness : find_closest_chain "  E " = Return None.
Proof.
  apply resolve_rejects_short_and_long. left. vm_compute. lia.
Defined.

Lemma string_compare_refl s : String.compare s s = Eq.
Proof.
  induction s as [|c s IH]; [done|]. cbn. unfold Stdlib.Strings.Ascii.compare.
  by rewrite N.compare_refl.
Qed.

Lemma string_compare_gt_trans s1 :
  forall s2 s3, String.compare s1 s2 = Gt -> String.compare s2 s3 = Gt ->
    String.compare s1 s3 = Gt.
Proof.
  induction s1 as [|c1 s1 IH]; intros [|c2 s2] [|c3 s3]; cbn; try done.
  unfold Stdlib.Strings.Ascii.compare.
  destruct (N.compare_spec (N_of_ascii c1) (N_of_ascii c2)) as [E12|L12|L12]; try done;
    destruct (N.compare_spec (N_of_ascii c2) (N_of_ascii c3)) as [E23|L23|L23]; try done;
    destruct (N.compare_spec (N_of_ascii c1) (N_of_ascii c3)) as [E13|L13|L13];
    try done; try lia.
  apply IH.
Qed.

(** Python's [>] on the tuples: a greater score, or an equal score and a
    string that comes later in code-point order. *)
Lemma tuple_gt_spec p q :
  difflib.tuple_gt p q = true <->
  (q.1 < p.1)%Q \/ ((p.1 == q.1)%Q /\ String.compare p.2 q.2 = Gt).
Proof.
  unfold difflib.tuple_gt. destruct (Qeq_bool p.1 q.1) eqn:E; cbn.
  - apply Qeq_bool_iff in E. split.
    + destruct (String.compare p.2 q.2); try done. intros _. by right.
    + intros [H|[_ ->]]; [|done]. rewrite E in H. by apply Qlt_irrefl in H.
  - apply Qeq_bool_neq in E. rewrite negb_true_iff. split.
    + intros H. left. apply Qnot_le_lt. intros Hle%Qle_bool_iff. by rewrite Hle in H.
    + intros [H|[H _]]; [|done]. destruct (Qle_bool p.1 q.1) eqn:L; [|done].
      apply Qle_bool_iff in L. by apply Qlt_not_le in H.
Qed.

Lemma tuple_gt_irrefl p : difflib.tuple_gt p p = false.
Proof.
  destruct (difflib.tuple_gt p p) eqn:G; [|done].
  apply tuple_gt_spec in G as [H|[_ H]].
  - by apply Qlt_irrefl in H.
  - by rewrite string_compare_refl in H.
Qed.

Lemma tuple_gt_trans p q r :
  difflib.tuple_gt p q = true -> difflib.tuple_gt q r = true ->
  difflib.tuple_gt p r = true.
Proof.
  rewrite !tuple_gt_spec. intros [H1|[E1 C1]] [H2|[E2 C2]].
  - left. by eapply Qlt_trans.
  - left. by rewrite <- E2.
  - left. by rewrite E1.
  - right. split; [by rewrite E1|]. by eapply string_compare_gt_trans.
Qed.

(** [max] returns an item that none of the items exceeds. *)
Lemma py_max_not_exceeded l r :
  difflib.py_max l = Some r -> forall y, y ∈ l -> difflib.tuple_gt y r = false.
Proof.
  destruct l as [|x l]; [done|]. cbn [difflib.py_max]. intros [= <-].
  set (step := fun best item : Q * string =>
                 if difflib.tuple_gt item best then item else best).
  assert (H : forall seen x,
            (forall y, y ∈ seen -> difflib.tuple_gt y x = false) ->
            forall y, y ∈ seen ++ l -> difflib.tuple_gt y (foldl step x l) = false).
  { induction l as [|z l IH]; intros seen x0 Hseen y Hy; cbn [foldl].
    - rewrite app_nil_r in Hy. by apply Hseen.
    - apply (IH (seen ++ [z])); [|by rewrite <- app_assoc].
      intros y' [Hy'|Hy']%elem_of_app; unfold step.
      + destruct (difflib.tuple_gt z x0) eqn:G; [|by apply Hseen].
        destruct (difflib.tuple_gt y' z) eqn:G'; [|done].
        pose proof (tuple_gt_trans _ _ _ G' G) as T. by rewrite (Hseen y' Hy') in T.
      + apply list_elem_of_singleton in Hy' as ->.
        destruct (difflib.tuple_gt z x0) eqn:G; [apply tuple_gt_irrefl|done]. }
  intros y Hy. apply (H [x]); [|done].
  intros y' ->%list_elem_of_singleton. apply tuple_gt_irrefl.
Qed.

(** X4.  A chain found by the fuzzy pass owns an alias that scores 0.6 or
    more against the normalized input.  Among the aliases that pass the
    three cutoff tests none scores higher than that one, and none with the
    same score comes after it in code-point order: ties go to the
    greatest alias. *)
Theorem fuzzy_pass_returns_best_alias x c :
  direct_match SUPPORTED_CHAINS (normalize x) = None ->
  find_closest_chain x = Return (Some c) ->
  exists aliases a,
    (c, aliases) ∈ SUPPORTED_CHAINS /\ a ∈ aliases /\
    (0.6 <= difflib.score (normalize x) (lower a))%Q /\
    forall a', a' ∈ all_aliases ->
      difflib.close_enough 0.6 (normalize x) a' = true ->
      (difflib.score (normalize x) a' <= difflib.score (normalize x) (lower a))%Q /\
      ((difflib.score (normalize x) a' == difflib.score (normalize x) (lower a))%Q ->
       String.compare a' (lower a) <> Gt).
Proof.
  intros D. unfold find_closest_chain. fold (normalize x). rewrite D.
  unfold difflib.get_close_matches, difflib.nlargest1.
  destruct (difflib.py_max _) as [[q m]|] eqn:P; [|done]. cbn [fmap list_fmap snd].
  pose proof (py_max_elem _ _ P) as Hin.
  apply list_elem_of_fmap in Hin as (m' & [= -> ->] & Hm).
  apply list_elem_of_filter in Hm as [Hc Hm].
  pose proof alias_lengths_checked as Hal. rewrite Forall_forall in Hal.
  destruct (Hal _ Hm) as [_ Hmap].
  destruct (chain_mapping !! m') as [k|] eqn:L; [|done]. intros [= ->].
  symmetry in Hmap. apply direct_match_Some in Hmap as (aliases & a & He & Ha & ->).
  exists aliases, a. split; [done|]. split; [done|]. split.
  - unfold difflib.close_enough in Hc. apply andb_prop in Hc as [_ Hc].
    by apply Qle_bool_iff.
  - intros a' Ha' Hc'.
    assert (G : difflib.tuple_gt (difflib.score (normalize x) a', a')
                  (difflib.score (normalize x) (lower a), lower a) = false).
    { apply (py_max_not_exceeded _ _ P).
      apply list_elem_of_fmap. exists a'. split; [done|]. by apply list_elem_of_filter. }
    split.
    + apply Qnot_lt_le. intros Hlt.
      assert (G' : difflib.tuple_gt (difflib.score (normalize x) a', a')
                     (difflib.score (normalize x) (lower a), lower a) = true)
        by (apply tuple_gt_spec; by left).
      by rewrite G in G'.
    + intros Heq Hgt.
      assert (G' : difflib.tuple_gt (difflib.score (normalize x) a', a')
                     (difflib.score (normalize x) (lower a), lower a) = true)
        by (apply tuple_gt_spec; by right).
      by rewrite G in G'.
Qed.

Lemma fuzzy_pass_returns_best_alias_witness :
  exists aliases a,
    ("arbitrum_sepolia", aliases) ∈ SUPPORTED_CHAINS /\ a ∈ aliases /\
    (0.6 <= difflib.score (normalize "arbitrun") (lower a))%Q /\
    forall a', a' ∈ all_aliases ->
      difflib.close_enough 0.6 (normalize "arbitrun") a' = true ->
      (difflib.score (normalize "arbitrun") a' <=
       difflib.score (normalize "arbitrun") (lower a))%Q /\
      ((difflib.score (normalize "arbitrun") a' ==
        difflib.score (normalize "arbitrun") (lower a))%Q ->
       String.compare a' (lower a) <> Gt).
Proof.
  apply (fuzzy_pass_returns_best_alias "arbitrun" "arbitrum_sepolia"); by vm_compute.
Defined.

(** ** The tool list and the dispatcher *)

(** X5.  A tool name that [handle_list_tools] does not list is answered by
    the unknown-tool text, whatever the arguments, and nothing is called. *)
Theorem unlisted_tool_is_unknown CCIPClient tool arguments log :
  tool ∉ name <$> handle_list_tools ->
  handle_call_tool CCIPClient tool arguments log =
    (Return ("❌ Unknown tool: " +:+ tool), log).
Proof.
  intros Hn. unfold handle_call_tool.
  rewrite !bool_decide_eq_false_2; [done| |]; intros ->; apply Hn; cbn.
  - right. left.
  - left.
Qed.

Lemma unlisted_tool_is_unknown_witness :
  handle_call_tool (mock_sdk 8 "") "list_chains" ∅ [] =
    (Return "❌ Unknown tool: list_chains", []).
Proof.
  apply (unlisted_tool_is_unknown (mock_sdk 8 "") "list_chains" ∅ []).
  cbn. rewrite !not_elem_of_cons. repeat split; (discriminate || apply not_elem_of_nil).
Defined.



(** ** The branch [execute_ccip_transfer]: errors *)

Lemma bind_lift_Raise {A B} e (k : A -> M B) log :
  (lift (Raise e) ≫= k) log = (Raise e, log).
Proof. reflexivity. Qed.

(** X8.  The keys that the schema of the transfer tool requires are read
    in the order of the schema before anything else is done: the first one
    that the arguments lack gives the failure text on its [KeyError], the
    client is not made and no capability is called, whatever else the
    arguments hold. *)
Theorem missing_required_argument CCIPClient arguments t before key after :
  find_tool "execute_ccip_transfer" = Some t ->
  required (inputSchema t) = before ++ key :: after ->
  (forall k, k ∈ before -> is_Some (arguments !! k)) ->
  arguments !! key = None ->
  handle_call_tool CCIPClient "execute_ccip_transfer" arguments [] =
    (Return (error_msg (KeyError key)), []).
Proof.
  intros [= <-] Hreq Hbefore Habs. cbn in Hreq.
  unfold handle_call_tool, try_except, execute_ccip_transfer, getitem.
  rewrite bool_decide_eq_true_2 by done.
  destruct before as [|k1 [|k2 [|k3 before]]]; cbn in Hreq.
  - injection Hreq as <- _. by rewrite Habs, bind_lift_Raise.
  - injection Hreq as <- <- _. destruct (Hbefore "sender_chain") as [v1 ->]; [left|].
    by rewrite bind_lift_Return, Habs, bind_lift_Raise.
  - injection Hreq as <- <- <- _.
    destruct (Hbefore "sender_chain") as [v1 ->]; [left|].
    destruct (Hbefore "receiver_chain") as [v2 ->]; [right; left|].
    by rewrite !bind_lift_Return, Habs, bind_lift_Raise.
  - injection Hreq as _ _ _ Hreq. by destruct before.
Qed.

Lemma missing_required_argument_witness :
  handle_call_tool (mock_sdk 8 "") "execute_ccip_transfer"
    {[ "sender_chain" := PyStr "polygon"; "private_key" := PyStr "0xkey" ]} [] =
    (Return (error_msg (KeyError "receiver_chain")), []).
Proof.
  refine (missing_required_argument (mock_sdk 8 "") _ _ ["sender_chain"] "receiver_chain"
            ["private_key"] eq_refl eq_refl _ _).
  - intros k ->%list_elem_of_singleton. vm_compute. by eexists.
  - by vm_compute.
Defined.

(** X9.  Both chain inputs are resolved before any of the three validation
    tests: with the required keys there, a chain input that is no string
    gives the failure text on its [AttributeError] and no call, and for the
    receiver this holds even when the sender input resolves to nothing. *)
Theorem non_string_chain_fails CCIPClient arguments sender receiver private_key :
  arguments !! "sender_chain" = Some sender ->
  arguments !! "receiver_chain" = Some receiver ->
  arguments !! "private_key" = Some private_key ->
  let run := handle_call_tool CCIPClient "execute_ccip_transfer" arguments [] in
  (is_str sender = false -> run = (Return (error_msg (no_lower sender)), [])) /\
  (is_str sender = true -> is_str receiver = false ->
     run = (Return (error_msg (no_lower receiver)), [])).
Proof.
  intros Hs Hr Hk run. subst run.
  unfold handle_call_tool, try_except, execute_ccip_transfer, getitem.
  rewrite bool_decide_eq_true_2 by done.
  rewrite Hs, Hr, Hk, !bind_lift_Return. cbv beta. split.
  - intros Hn. by destruct sender.
  - intros Hy Hn. destruct sender as [si| |]; try done. cbn [find_closest_chain_of].
    destruct (find_closest_chain_total si) as [sc ->]. rewrite bind_lift_Return.
    by destruct receiver.
Qed.

Lemma non_string_chain_fails_witness :
  handle_call_tool (mock_sdk 8 "") "execute_ccip_transfer"
    {[ "sender_chain" := PyStr "polygon"; "receiver_chain" := PyInt 5;
       "private_key" := PyStr "0xkey" ]} [] =
    (Return (error_msg "'int' object has no attribute 'lower'"), []).
Proof.
  refine (proj2 (non_string_chain_fails (mock_sdk 8 "") _ (PyStr "polygon") (PyInt 5)
                   (PyStr "0xkey") _ _ _) _ _); by vm_compute.
Defined.

(** ** The branch [find_supported_chain] *)

(** X10.  The resolve tool has no [try]: a missing [chain_input] and a
    [chain_input] that is no string raise out of the handler, with nothing
    called. *)
Theorem find_supported_chain_raises CCIPClient arguments log :
  (arguments !! "chain_input" = None ->
     handle_call_tool CCIPClient "find_supported_chain" arguments log =
       (Raise (KeyError "chain_input"), log)) /\
  (forall v, arguments !! "chain_input" = Some v -> is_str v = false ->
     handle_call_tool CCIPClient "find_supported_chain" arguments log =
       (Raise (no_lower v), log)).
Proof.
  unfold handle_call_tool, find_supported_chain, getitem.
  rewrite bool_decide_eq_false_2 by done. rewrite bool_decide_eq_true_2 by done.
  split.
  - by intros ->.
  - intros v -> Hv. rewrite bind_lift_Return. by destruct v.
Qed.

Lemma find_supported_chain_raises_witness :
  handle_call_tool (mock_sdk 8 "") "find_supported_chain" ∅ [] =
    (Raise "'chain_input'", []).
Proof.
  apply (proj1 (find_supported_chain_raises (mock_sdk 8 "") ∅ [])). by vm_compute.
Defined.

Lemma find_supported_chain_cases CCIPClient arguments chain_input log :
  arguments !! "chain_input" = Some (PyStr chain_input) ->
  (find_closest_chain chain_input = Return None /\
   handle_call_tool CCIPClient "find_supported_chain" arguments log =
     (Return (no_match_text chain_input), log)) \/
  (exists c, c ∈ keys /\ find_closest_chain chain_input = Return (Some c) /\
     handle_call_tool CCIPClient "find_supported_chain" arguments log =
       (Return (chain_found_text chain_input c), log)).
Proof.
  intros Hin. unfold handle_call_tool, find_supported_chain, getitem.
  rewrite bool_decide_eq_false_2 by done. rewrite bool_decide_eq_true_2 by done.
  rewrite Hin, bind_lift_Return. cbn [find_closest_chain_of].
  destruct (resolve_cases chain_input) as [H|(c & Hc & H)].
  - left. split; [done|]. by rewrite H.
  - right. exists c. split; [done|]. split; [done|].
    rewrite H, bind_lift_Return. cbn [falsy].
    rewrite bool_decide_eq_false_2; [done|]. by destruct (key_facts c Hc).
Qed.


(** X11.  On a string the resolve tool calls nothing and raises nothing; it
    answers what [find_closest_chain] finds: the no-match text with the
    list of the identifiers, or the chain-found text with a canonical
    identifier.  Both texts quote the input as it was given. *)
Theorem find_supported_chain_answers CCIPClient arguments chain_input log :
  arguments !! "chain_input" = Some (PyStr chain_input) ->
  (find_closest_chain chain_input = Return None /\
   handle_call_tool CCIPClient "find_supported_chain" arguments log =
     (Return (no_match_text chain_input), log)) \/
  (exists c, c ∈ keys /\ find_closest_chain chain_input = Return (Some c) /\
     handle_call_tool CCIPClient "find_supported_chain" arguments log =
       (Return (chain_found_text chain_input c), log)).
Proof. apply find_supported_chain_cases. Qed.

Lemma find_supported_chain_answers_witness :
  (find_closest_chain " Avax" = Return None /\
   handle_call_tool (mock_sdk 8 "") "find_supported_chain"
     {[ "chain_input" := PyStr " Avax" ]} [] = (Return (no_match_text " Avax"), [])) \/
  (exists c, c ∈ keys /\ find_closest_chain " Avax" = Return (Some c) /\
     handle_call_tool (mock_sdk 8 "") "find_supported_chain"
       {[ "chain_input" := PyStr " Avax" ]} [] = (Return (chain_found_text " Avax" c), [])).
Proof.
  apply (find_supported_chain_answers (mock_sdk 8 "") _ " Avax" []). by vm_compute.
Defined.

(** ** The branch [execute_ccip_transfer]: what is called, and when *)

(** A run of the transfer tool found the request valid and got its client,
    or returned a text without a call, or let escape what the constructor
    of the client raised. *)
Lemma execute_cases CCIPClient arguments :
  (exists s r private_key client,
     validated arguments s r private_key /\ CCIPClient private_key = Return client) \/
  (exists text,
     handle_call_tool CCIPClient "execute_ccip_transfer" arguments [] = (Return text, [])) \/
  (exists private_key e,
     arguments !! "private_key" = Some private_key /\
     CCIPClient private_key = RaiseBase e /\
     handle_call_tool CCIPClient "execute_ccip_transfer" arguments [] = (RaiseBase e, [])).
Proof.
  unfold handle_call_tool, try_except, execute_ccip_transfer, getitem.
  rewrite bool_decide_eq_true_2 by done.
  destruct (arguments !! "sender_chain") as [vs|] eqn:Hs; [|right; left; by eexists].
  destruct (arguments !! "receiver_chain") as [vr|] eqn:Hr; [|right; left; by eexists].
  destruct (arguments !! "private_key") as [pk|] eqn:Hk; [|right; left; by eexists].
  rewrite !bind_lift_Return. cbv beta.
  destruct vs as [si| |]; [|right; left; by eexists|right; left; by eexists].
  cbn [find_closest_chain_of].
  destruct (find_closest_chain_total si) as [sc Fs]. rewrite Fs, bind_lift_Return.
  destruct vr as [ri| |]; [|right; left; by eexists|right; left; by eexists].
  cbn [find_closest_chain_of].
  destruct (find_closest_chain_total ri) as [rc Fr]. rewrite Fr, bind_lift_Return.
  cbv beta.
  destruct (falsy sc) eqn:Es; [right; left; by eexists|].
  destruct (falsy rc) eqn:Er; [right; left; by eexists|].
  case_bool_decide as Hne; [right; left; by eexists|]. cbv zeta.
  destruct (CCIPClient pk) as [client|e|e] eqn:Hc.
  - left. destruct sc as [s|]; [|done]. destruct rc as [r|]; [|done].
    exists s, r, pk, client. split; [|done].
    exists si, ri. repeat split; try done. congruence.
  - right; left. by eexists.
  - right; right. by exists pk, e.
Qed.

Lemma validated_or_nothing_called CCIPClient arguments :
  (exists s r private_key client,
     validated arguments s r private_key /\ CCIPClient private_key = Return client) \/
  (handle_call_tool CCIPClient "execute_ccip_transfer" arguments []).2 = [].
Proof.
  destruct (execute_cases CCIPClient arguments)
    as [H|[[text ->]|(pk & e & _ & _ & ->)]]; [by left|by right|by right].
Qed.

(** X7.  No [Exception] escapes the transfer tool: whatever the arguments
    and the client, an invocation returns a text or lets escape an error
    that is no [Exception] and that the SDK raised.  Such an error comes
    from the constructor of the client, and then nothing was called, or
    from the last call in the log, which the client answered with it.  With
    an SDK that raises nothing but [Exception]s the tool returns a text. *)
Theorem only_base_exceptions_escape CCIPClient arguments result log :
  handle_call_tool CCIPClient "execute_ccip_transfer" arguments [] = (result, log) ->
  (forall e, result <> Raise e) /\
  (forall e, result = RaiseBase e ->
     exists private_key,
       arguments !! "private_key" = Some private_key /\
       ((CCIPClient private_key = RaiseBase e /\ log = []) \/
        (exists client op,
           CCIPClient private_key = Return client /\
           last log = Some (op, RaiseBase e) /\
           client (take (length log - 1) log) op = RaiseBase e))) /\
  ((forall private_key e, CCIPClient private_key <> RaiseBase e) ->
   (forall private_key client, CCIPClient private_key = Return client ->
      forall l op e, client l op <> RaiseBase e) ->
   exists text, result = Return text).
Proof.
  intros Hrun.
  assert (Hbase : forall e, result = RaiseBase e ->
     exists private_key,
       arguments !! "private_key" = Some private_key /\
       ((CCIPClient private_key = RaiseBase e /\ log = []) \/
        (exists client op,
           CCIPClient private_key = Return client /\
           last log = Some (op, RaiseBase e) /\
           client (take (length log - 1) log) op = RaiseBase e)) /\
     True).
  2: assert (Hexc : forall e, result <> Raise e).
  - destruct (execute_cases CCIPClient arguments)
      as [(s & r & pk & client & Hv & Hc)|[[text Ht]|(pk & e' & Hk & Hc & Ht)]].
    + intros e ->. exists pk.
      pose proof Hv as (si & ri & _ & _ & Hk & _). split; [done|]. split; [|done].
      right. exists client.
      rewrite (execute_refines _ _ _ _ _ _ Hv Hc) in Hrun.
      set (steps := eight_steps s r (optional_parameters arguments)) in *.
      destruct (run_steps_spec client steps []) as (new & H1 & H2).
      pose proof (run_steps_answers client steps []) as Ha.
      destruct (run_steps client steps []) as [log' res].
      cbn [fst snd app] in H1, H2, Ha. subst new.
      injection Hrun as Hres <-.
      destruct H2 as [(-> & _)|(k & op & o & Hns & -> & _ & Hlen & _ & _ & Hk')];
        [done|].
      destruct o as [h|c|c]; [done|done|]. cbn in Hres. injection Hres as ->.
      exists op. split; [done|]. rewrite Hlen.
      replace (S k - 1)%nat with k by lia. split.
      * rewrite last_lookup, Hlen. by cbn.
      * apply Ha; [cbn; lia|done].
    + intros e ->. rewrite Ht in Hrun. discriminate Hrun.
    + intros e ->. rewrite Ht in Hrun. injection Hrun as -> <-.
      exists pk. split; [done|]. split; [|done]. by left.
  - intros e ->.
    destruct (execute_cases CCIPClient arguments)
      as [(s & r & pk & client & Hv & Hc)|[[text Ht]|(pk & e' & Hk & Hc & Ht)]].
    + rewrite (execute_refines _ _ _ _ _ _ Hv Hc) in Hrun.
      destruct (run_steps client _ []) as [log' [[]|c|c]]; discriminate Hrun.
    + rewrite Ht in Hrun. discriminate Hrun.
    + rewrite Ht in Hrun. discriminate Hrun.
  - split; [done|]. split.
    + intros e He. destruct (Hbase e He) as (pk & H1 & H2 & _). by exists pk.
    + intros Hctor Hcalls. destruct result as [text|e|e]; [by exists text|by destruct (Hexc e)|].
      destruct (Hbase e eq_refl) as (pk & _ & [[Hc _]|(client & op & Hc & _ & Ho)] & _).
      * by destruct (Hctor pk e).
      * by destruct (Hcalls pk client Hc _ _ _ Ho).
Qed.

Lemma only_base_exceptions_escape_witness :
  (handle_call_tool (interrupted_sdk 4 "KeyboardInterrupt") "execute_ccip_transfer"
     (request "eth" "base") []).1 = RaiseBase "KeyboardInterrupt" /\
  exists private_key,
    request "eth" "base" !! "private_key" = Some private_key /\
    ((interrupted_sdk 4 "KeyboardInterrupt" private_key = RaiseBase "KeyboardInterrupt" /\
      (handle_call_tool (interrupted_sdk 4 "KeyboardInterrupt") "execute_ccip_transfer"
         (request "eth" "base") []).2 = []) \/
     (exists client op,
        interrupted_sdk 4 "KeyboardInterrupt" private_key = Return client /\
        last (handle_call_tool (interrupted_sdk 4 "KeyboardInterrupt")
                "execute_ccip_transfer" (request "eth" "base") []).2 =
          Some (op, RaiseBase "KeyboardInterrupt") /\
        client (take (length (handle_call_tool (interrupted_sdk 4 "KeyboardInterrupt")
                                "execute_ccip_transfer" (request "eth" "base") []).2 - 1)
                  (handle_call_tool (interrupted_sdk 4 "KeyboardInterrupt")
                     "execute_ccip_transfer" (request "eth" "base") []).2) op =
          RaiseBase "KeyboardInterrupt")).
Proof.
  split; [by vm_compute|].
  apply (proj1 (proj2 (only_base_exceptions_escape
                         (interrupted_sdk 4 "KeyboardInterrupt") (request "eth" "base")
                         _ _ (run_pair _ _ _)))).
  by vm_compute.
Defined.

(** X12.  Whatever the arguments, the transfer tool calls the client only
    for a request that passed validation: the calls made are the first ones
    of the eight steps, at most eight, on two canonical identifiers that
    differ. *)
Theorem calls_follow_validation CCIPClient arguments text log :
  handle_call_tool CCIPClient "execute_ccip_transfer" arguments [] = (text, log) ->
  log <> [] ->
  exists s r private_key,
    validated arguments s r private_key /\ s ∈ keys /\ r ∈ keys /\ s <> r /\
    log.*1 `prefix_of` eight_steps s r (optional_parameters arguments) /\
    (length log <= 8)%nat.
Proof.
  intros Hrun Hne.
  destruct (validated_or_nothing_called CCIPClient arguments)
    as [(s & r & pk & client & Hv & Hc)|He]; [|by rewrite Hrun in He].
  exists s, r, pk. split; [done|].
  pose proof Hv as (si & ri & _ & _ & _ & Fs & Fr & Hsr).
  split; [by eapply find_closest_chain_key|]. split; [by eapply find_closest_chain_key|].
  split; [done|].
  rewrite (execute_refines _ _ _ _ _ _ Hv Hc) in Hrun.
  set (steps := eight_steps s r (optional_parameters arguments)) in *.
  pose proof (run_steps_prefix client steps) as Hp.
  destruct (run_steps client steps []) as [log' failure].
  injection Hrun as <- <-. cbn [fst] in Hp.
  split; [done|]. apply prefix_length in Hp. by rewrite length_fmap in Hp.
Qed.

Lemma calls_follow_validation_witness :
  exists s r private_key,
    validated (request "eth" "base") s r private_key /\ s ∈ keys /\ r ∈ keys /\ s <> r /\
    (handle_call_tool (mock_sdk 2 "nonce too low") "execute_ccip_transfer"
       (request "eth" "base") []).2.*1
      `prefix_of` eight_steps s r (optional_parameters (request "eth" "base")) /\
    (length (handle_call_tool (mock_sdk 2 "nonce too low") "execute_ccip_transfer"
               (request "eth" "base") []).2 <= 8)%nat.
Proof.
  apply (calls_follow_validation (mock_sdk 2 "nonce too low") (request "eth" "base") _ _
           (run_pair _ _ _)).
  by vm_compute.
Defined.

(** X13.  The handlers read their arguments only under the keys that the
    schema of the tool lists: two argument maps that agree on these keys
    get the same answer and the same calls. *)
Theorem handlers_read_schema_keys_only CCIPClient t arguments arguments' log :
  t ∈ handle_list_tools ->
  (forall k, k ∈ (properties (inputSchema t)).*1 -> arguments !! k = arguments' !! k) ->
  handle_call_tool CCIPClient (name t) arguments log =
    handle_call_tool CCIPClient (name t) arguments' log.
Proof.
  intros Ht Hagree. unfold handle_list_tools in Ht.
  apply elem_of_cons in Ht as [->|Ht]; [|apply list_elem_of_singleton in Ht as ->];
    cbn [name inputSchema properties fmap list_fmap fst] in *.
  - unfold handle_call_tool, try_except, execute_ccip_transfer, getitem, get.
    rewrite !(Hagree "sender_chain"), !(Hagree "receiver_chain"), !(Hagree "private_key"),
      !(Hagree "token_type"), !(Hagree "token_amount"), !(Hagree "eth_amount"),
      !(Hagree "transfer_amount"), !(Hagree "message");
      [done|rewrite !elem_of_cons; tauto..].
  - unfold handle_call_tool, find_supported_chain, getitem.
    rewrite (Hagree "chain_input"); [done|left].
Qed.

Lemma handlers_read_schema_keys_only_witness :
  handle_call_tool (mock_sdk 8 "") "find_supported_chain"
    {[ "chain_input" := PyStr "fuji"; "verbose" := PyInt 1 ]} [] =
  handle_call_tool (mock_sdk 8 "") "find_supported_chain"
    {[ "chain_input" := PyStr "fuji" ]} [].
Proof.
  refine (handlers_read_schema_keys_only (mock_sdk 8 "")
            (default (Build_Tool "" "" (Build_Schema "" [] [])) (handle_list_tools !! 1%nat))
            _ _ [] _ _).
  - right. left.
  - intros k ->%list_elem_of_singleton. by vm_compute.
Defined.

(** ** The success text *)

Lemma prefix_split m : forall s, String.prefix m s = true -> exists q, s = m +:+ q.
Proof.
  induction m as [|a m IH]; intros s H.
  - by exists s.
  - destruct s as [|b s]; [done|]. cbn in H.
    destruct (ascii_dec a b) as [->|]; [|done].
    destruct (IH s H) as [q ->]. by exists q.
Qed.

Lemma contains_split sub s :
  contains sub s = true -> exists p q, s = p +:+ sub +:+ q.
Proof.
  induction s as [|c s IH]; cbn [contains].
  - rewrite orb_false_r. intros [q ->]%prefix_split. by exists "", q.
  - intros [H|H]%orb_prop.
    + apply prefix_split in H as [q ->]. by exists "", q.
    + destruct (IH H) as (p & q & ->). by exists (String c p), q.
Qed.

Lemma contains_trans a b c :
  contains a b = true -> contains b c = true -> contains a c = true.
Proof.
  intros (p & q & ->)%contains_split (p' & q' & ->)%contains_split.
  rewrite !string_app_assoc, <- (string_app_assoc p' p). apply contains_app.
Qed.

Lemma contains_concat line l :
  line ∈ l -> forall pre post, contains line (pre +:+ concat_text l +:+ post) = true.
Proof.
  induction l as [|x l IH]; [by intros ?%elem_of_nil|].
  intros [->|Hin]%elem_of_cons pre post; cbn [concat_text foldr].
  - rewrite string_app_assoc. apply contains_app.
  - fold (concat_text l). rewrite string_app_assoc, <- (string_app_assoc pre x).
    by apply IH.
Qed.

(** X14.  The text of a successful transfer narrates the eight steps: it
    holds the start line of every step and the completion line of the
    steps 1 to 7, and so shows every value that the eight calls
    returned. *)
Theorem success_text_narrates_steps
    CCIPClient arguments s r private_key client text log :
  validated arguments s r private_key ->
  CCIPClient private_key = Return client ->
  handle_call_tool CCIPClient "execute_ccip_transfer" arguments [] = (text, log) ->
  Forall succeeded log ->
  let p := optional_parameters arguments in
  exists t,
    text = Return t /\
    (forall k, (1 <= k <= 8)%nat -> contains (step_start k s r p) t = true) /\
    (forall k, (1 <= k <= 7)%nat ->
       contains (step_done k (handle log (k - 1))) t = true) /\
    (forall i, (i < 8)%nat -> contains (handle log i) t = true).
Proof.
  intros Hv Hc Hrun Hall p. rewrite (execute_refines _ _ _ _ _ _ Hv Hc) in Hrun.
  fold p in Hrun.
  destruct (run_steps client (eight_steps s r p) []) as [log' failure] eqn:E.
  injection Hrun as <- <-.
  destruct (run_all_succeeded _ _ _ _ E Hall) as [-> _].
  exists (success_text s r p log'). split; [done|].
  assert (Hline : forall line, line ∈ progress_lines 8 s r p log' ->
                    contains line (success_text s r p log') = true).
  { intros line Hin. by apply contains_concat. }
  assert (Hdone : forall k, (1 <= k <= 7)%nat ->
                    contains (step_done k (handle log' (k - 1)))
                      (success_text s r p log') = true).
  { intros k Hk. apply Hline. cbn [progress_lines app].
    do 8 (destruct k as [|k]; [rewrite !elem_of_cons; tauto || lia|]). lia. }
  split; [|split; [done|]].
  - intros k Hk. apply Hline. cbn [progress_lines app].
    do 9 (destruct k as [|k]; [rewrite !elem_of_cons; tauto || lia|]). lia.
  - intros i Hi. destruct (decide (i = 7%nat)) as [->|Hne].
    + unfold success_text, complete_text.
      rewrite <- !string_app_assoc. rewrite !string_app_assoc.
      apply contains_skip, contains_skip.
      do 7 apply contains_skip. apply contains_prefix.
    + apply (contains_trans _ (step_done (S i) (handle log' (S i - 1)))).
      * replace (S i - 1)%nat with i by lia. unfold step_done. apply contains_app.
      * apply Hdone. lia.
Qed.

Lemma success_text_narrates_steps_witness :
  exists t,
    (handle_call_tool (mock_sdk 8 "") "execute_ccip_transfer" (request "eth" "base") []).1 =
      Return t /\
    contains "0x4ec1" t = true.
Proof.
  destruct (success_text_narrates_steps (mock_sdk 8 "") (request "eth" "base")
              "ethereum_sepolia" "base_sepolia" (PyStr "0xkey") (mock_client 8 "") _ _
              mock_request_validated eq_refl (run_pair _ _ _))
    as (t & Ht & _ & _ & Hh).
  - vm_compute. repeat (apply Forall_cons; split; [by eexists|]). apply Forall_nil_2.
  - exists t. split; [exact Ht|]. exact (Hh 4%nat ltac:(lia)).
Defined.

(** ** The two tools together *)

Lemma string_app_inv_head p s t : p +:+ s = p +:+ t -> s = t.
Proof. induction p as [|c p IH]; [done|]. rewrite !app_cons. intros [= H]. by apply IH. Qed.

Lemma string_length_app s t :
  String.length (s +:+ t) = (String.length s + String.length t)%nat.
Proof. induction s as [|c s IH]; [done|]. rewrite app_cons. cbn. by rewrite IH. Qed.

Lemma string_app_inv_tail u s : forall t, s +:+ u = t +:+ u -> s = t.
Proof.
  induction s as [|a s IH]; intros [|b t] H; [done| | |].
  - apply (f_equal String.length) in H. rewrite app_nil_l, string_length_app in H.
    cbn in H. lia.
  - apply (f_equal String.length) in H. rewrite app_nil_l, string_length_app in H.
    cbn in H. lia.
  - rewrite !app_cons in H. injection H as -> H. f_equal. by apply IH.
Qed.

Lemma chain_found_text_inj x c c' : chain_found_text x c = chain_found_text x c' -> c = c'.
Proof.
  unfold chain_found_text.
  intros H%string_app_inv_head%string_app_inv_head%string_app_inv_head.
  by apply string_app_inv_tail in H.
Qed.

Lemma no_match_is_not_found x c : no_match_text x <> chain_found_text x c.
Proof.
  intros H.
  assert (H1 : String.prefix done_marker (chain_found_text x c) = true) by reflexivity.
  assert (H2 : String.prefix done_marker (no_match_text x) = false) by reflexivity.
  rewrite H in H2. by rewrite H1 in H2.
Qed.

Lemma run_text_inj {A} (a b : string) (l l' : A) :
  (Return a, l) = (Return b, l') -> a = b.
Proof.
  intros H.
  exact (f_equal (fun p : outcome string * A =>
                    match p.1 with Return t => t | _ => a end) H).
Qed.

(** X15.  The two tools agree.  When the resolve tool answers that an input
    is the chain [c], a transfer whose sender input is that same text makes
    its calls with [c] as the sender chain, and one whose receiver input is
    that text makes them with [c] as the receiver chain. *)
Theorem tools_agree_on_resolution
    CCIPClient CCIPClient' lookup_arguments arguments x c text log :
  lookup_arguments !! "chain_input" = Some (PyStr x) ->
  handle_call_tool CCIPClient' "find_supported_chain" lookup_arguments [] =
    (Return (chain_found_text x c), []) ->
  handle_call_tool CCIPClient "execute_ccip_transfer" arguments [] = (text, log) ->
  log <> [] ->
  exists s r private_key,
    validated arguments s r private_key /\
    log.*1 `prefix_of` eight_steps s r (optional_parameters arguments) /\
    (arguments !! "sender_chain" = Some (PyStr x) -> s = c) /\
    (arguments !! "receiver_chain" = Some (PyStr x) -> r = c).
Proof.
  intros Hin Hfound Hrun Hne.
  assert (Fx : find_closest_chain x = Return (Some c)).
  { destruct (find_supported_chain_cases CCIPClient' lookup_arguments x [] Hin)
      as [[_ H]|(c' & _ & F & H)]; rewrite Hfound in H; apply run_text_inj in H.
    - by apply symmetry, no_match_is_not_found in H.
    - by apply chain_found_text_inj in H as ->. }
  destruct (validated_or_nothing_called CCIPClient arguments)
    as [(s & r & pk & client & Hv & Hc)|He]; [|by rewrite Hrun in He].
  exists s, r, pk. split; [done|].
  pose proof Hv as (si & ri & Hs & Hr & _ & Fs & Fr & _).
  split.
  - rewrite (execute_refines _ _ _ _ _ _ Hv Hc) in Hrun.
    set (steps := eight_steps s r (optional_parameters arguments)) in *.
    pose proof (run_steps_prefix client steps) as Hp.
    destruct (run_steps client steps []) as [log' failure].
    by injection Hrun as <- <-.
  - split; intros Hx; rewrite Hx in *; congruence.
Qed.

Lemma tools_agree_on_resolution_witness :
  exists s r private_key,
    validated (request "arbitrun" "base") s r private_key /\
    (handle_call_tool (mock_sdk 8 "") "execute_ccip_transfer"
       (request "arbitrun" "base") []).2.*1
      `prefix_of` eight_steps s r (optional_parameters (request "arbitrun" "base")) /\
    (request "arbitrun" "base" !! "sender_chain" = Some (PyStr "arbitrun") ->
     s = "arbitrum_sepolia") /\
    (request "arbitrun" "base" !! "receiver_chain" = Some (PyStr "arbitrun") ->
     r = "arbitrum_sepolia").
Proof.
  refine (tools_agree_on_resolution (mock_sdk 8 "") (mock_sdk 8 "")
            {[ "chain_input" := PyStr "arbitrun" ]} (request "arbitrun" "base")
            "arbitrun" "arbitrum_sepolia" _ _ _ _ (run_pair _ _ _) _); by vm_compute.
Defined.

(** X16.  The private key reaches the client constructor and nothing else:
    with another key for which the constructor answers the same, the text
    and the calls are the same. *)
Theorem private_key_only_reaches_constructor
    CCIPClient CCIPClient' arguments private_key private_key' log :
  arguments !! "private_key" = Some private_key ->
  CCIPClient' private_key' = CCIPClient private_key ->
  handle_call_tool CCIPClient' "execute_ccip_transfer"
    (<["private_key" := private_key']> arguments) log =
  handle_call_tool CCIPClient "execute_ccip_transfer" arguments log.
Proof.
  intros Hk Hc.
  unfold handle_call_tool, try_except, execute_ccip_transfer, getitem, get.
  rewrite lookup_insert_eq, !lookup_insert_ne by done. rewrite Hk.
  destruct (arguments !! "sender_chain"); [|done].
  destruct (arguments !! "receiver_chain"); [|done].
  cbv beta iota delta [mbind M_bind lift]. by rewrite Hc.
Qed.

Lemma private_key_only_reaches_constructor_witness :
  handle_call_tool (mock_sdk 8 "") "execute_ccip_transfer"
    (<["private_key" := PyStr "0xother"]> (request "eth" "base")) [] =
  handle_call_tool (mock_sdk 8 "") "execute_ccip_transfer" (request "eth" "base") [].
Proof.
  apply (private_key_only_reaches_constructor (mock_sdk 8 "") (mock_sdk 8 "")
           (request "eth" "base") (PyStr "0xkey") (PyStr "0xother") []); by vm_compute.
Defined.

(** ** Aliases as chain inputs of a transfer *)

Lemma variant_resolves c aliases a x :
  (c, aliases) ∈ SUPPORTED_CHAINS -> a ∈ aliases -> case_space_variant x a ->
  find_closest_chain x = Return (Some c).
Proof.
  intros He Ha Hx. apply direct_match_resolves.
  rewrite (normalize_variant x a c aliases He Ha Hx).
  by destruct (alias_facts c aliases a He Ha) as (_ & _ & _ & _ & ?).
Qed.

(** X17.  Two aliases of one chain, in any letter case and with any white
    space around them, never start a transfer: as sender and receiver
    inputs they give the same-chain text and nothing is called. *)
Theorem aliases_of_one_chain_are_refused
    CCIPClient arguments c aliases a1 a2 x1 x2 private_key :
  (c, aliases) ∈ SUPPORTED_CHAINS -> a1 ∈ aliases -> a2 ∈ aliases ->
  case_space_variant x1 a1 -> case_space_variant x2 a2 ->
  arguments !! "sender_chain" = Some (PyStr x1) ->
  arguments !! "receiver_chain" = Some (PyStr x2) ->
  arguments !! "private_key" = Some private_key ->
  handle_call_tool CCIPClient "execute_ccip_transfer" arguments [] =
    (Return same_chain_text, []).
Proof.
  intros He H1 H2 V1 V2 Hs Hr Hk.
  destruct (validation_cases CCIPClient arguments x1 x2 private_key Hs Hr Hk)
    as (_ & _ & Hsame).
  apply (Hsame c);
    [exact (variant_resolves c aliases a1 x1 He H1 V1)
    |exact (variant_resolves c aliases a2 x2 He H2 V2)].
Qed.

Lemma aliases_of_one_chain_are_refused_witness :
  handle_call_tool (mock_sdk 8 "") "execute_ccip_transfer" (request "ETH" " sepolia") [] =
    (Return same_chain_text, []).
Proof.
  refine (aliases_of_one_chain_are_refused (mock_sdk 8 "") (request "ETH" " sepolia")
            "ethereum_sepolia"
            ["ethereum"; "eth"; "sepolia"; "ethereum sepolia"; "eth sepolia";
             "ethereum_sepolia"]
            "eth" "sepolia" "ETH" " sepolia" (PyStr "0xkey") _ _ _ _ _ _ _ _).
  - left.
  - right. left.
  - do 2 right. left.
  - exists "", "ETH", "". repeat split; reflexivity.
  - exists " ", "sepolia", "". repeat split; reflexivity.
  - by vm_compute.
  - by vm_compute.
  - by vm_compute.
Defined.

(** The executor always logs the call of the first step. *)
Lemma run_steps_first client op steps :
  exists o rest, (run_steps client (op :: steps) []).1 = (op, o) :: rest.
Proof.
  cbn [run_steps]. destruct (client [] op) as [h|e|e]; [|by eexists _, _..].
  destruct (run_steps_spec client steps ([] ++ [(op, Return h)])) as (new & H1 & _).
  rewrite H1. by eexists _, _.
Qed.

(** X18.  Aliases of two different chains, in any letter case and with any
    white space around them, pass validation; once the client is made the
    transfer starts, and its first call deploys the sender contract on the
    chain of the sender alias. *)
Theorem aliases_of_two_chains_start_transfer
    CCIPClient arguments c1 aliases1 a1 x1 c2 aliases2 a2 x2 private_key client :
  (c1, aliases1) ∈ SUPPORTED_CHAINS -> a1 ∈ aliases1 -> case_space_variant x1 a1 ->
  (c2, aliases2) ∈ SUPPORTED_CHAINS -> a2 ∈ aliases2 -> case_space_variant x2 a2 ->
  c1 <> c2 ->
  arguments !! "sender_chain" = Some (PyStr x1) ->
  arguments !! "receiver_chain" = Some (PyStr x2) ->
  arguments !! "private_key" = Some private_key ->
  CCIPClient private_key = Return client ->
  validated arguments c1 c2 private_key /\
  (handle_call_tool CCIPClient "execute_ccip_transfer" arguments []).2.*1 !! 0%nat =
    Some (deploy_sender_contract c1).
Proof.
  intros He1 Ha1 V1 He2 Ha2 V2 Hne Hs Hr Hk Hc.
  assert (Hv : validated arguments c1 c2 private_key).
  { exists x1, x2. repeat split; try done.
    - exact (variant_resolves c1 aliases1 a1 x1 He1 Ha1 V1).
    - exact (variant_resolves c2 aliases2 a2 x2 He2 Ha2 V2). }
  split; [done|]. rewrite (execute_refines _ _ _ _ _ _ Hv Hc).
  destruct (run_steps_first client (deploy_sender_contract c1)
              (tail (eight_steps c1 c2 (optional_parameters arguments))))
    as (o & rest & Hfirst).
  change (deploy_sender_contract c1 ::
          tail (eight_steps c1 c2 (optional_parameters arguments)))
    with (eight_steps c1 c2 (optional_parameters arguments)) in Hfirst.
  destruct (run_steps client _ []) as [log failure]. cbn [fst snd] in *.
  by rewrite Hfirst.
Qed.

Lemma aliases_of_two_chains_start_transfer_witness :
  (handle_call_tool (mock_sdk 0 "insufficient funds") "execute_ccip_transfer"
     (request "AVAX " "coinbase") []).2.*1 !! 0%nat =
    Some (deploy_sender_contract "avalanche_fuji").
Proof.
  refine (proj2 (aliases_of_two_chains_start_transfer (mock_sdk 0 "insufficient funds")
            (request "AVAX " "coinbase")
            "avalanche_fuji"
            ["avalanche"; "avax"; "fuji"; "avalanche fuji"; "avalanche_fuji"; "avax fuji"]
            "avax" "AVAX "
            "base_sepolia" ["base"; "base sepolia"; "base_sepolia"; "coinbase"]
            "coinbase" "coinbase" (PyStr "0xkey") (mock_client 0 "insufficient funds")
            _ _ _ _ _ _ _ _ _ _ eq_refl)).
  - do 3 right. left.
  - right. left.
  - exists "", "AVAX", " ". repeat split; reflexivity.
  - right. left.
  - do 3 right. left.
  - exists "", "coinbase", "". repeat split; reflexivity.
  - discriminate.
  - by vm_compute.
  - by vm_compute.
  - by vm_compute.
Defined.
